(** * PynBall: the step/reset state machine of the pinball environment

    A shallow embedding of [pynball/pynball_env.py].  Python floats are
    IEEE-754 binary64 values, modelled by Rocq's primitive floats; Python
    ints are [Z].  The environment object is mutated by its methods and
    methods may raise, so a method is a function from the object to the
    updated object paired with either a value or an exception.

    The classes [Ball], [PolygonObstacle] and [Target] are imported by the
    environment from other modules of the package.  The environment only
    uses their methods, so it is written here against their interface
    ([BallOps], [Physics]); an implementation that follows the
    specification ([Model]) runs it on concrete scenes ([Scene]), and a
    recording ball ([Spy]) tells which methods it calls, and in which
    order. *)

From Stdlib Require Import Floats ZArith List Bool Lia.
From Stdlib Require Import Permutation.
From Stdlib Require String.
Import ListNotations.

Set Warnings "-inexact-float".
Set Implicit Arguments.

Local Open Scope Z_scope.

(** ** Exceptions and the method monad *)

Module Py.

Inductive exn : Type :=
| AssertionError
| KeyError
| AttributeError
| IndexError
| RuntimeError.

Inductive result (A : Type) : Type :=
| Ok (a : A)
| Raise (e : exn).

Arguments Ok {A} a.
Arguments Raise {A} e.

(** A method of an object of type [S] returning an [A]. *)
Definition M (S A : Type) : Type := S -> S * result A.

Definition ret {S A} (a : A) : M S A := fun s => (s, Ok a).

Definition raise {S A} (e : exn) : M S A := fun s => (s, Raise e).

Definition bind {S A B} (m : M S A) (k : A -> M S B) : M S B :=
  fun s =>
    match m s with
    | (s', Ok a) => k a s'
    | (s', Raise e) => (s', Raise e)
    end.

Definition get {S A} (f : S -> A) : M S A := fun s => (s, Ok (f s)).

Definition modify {S} (f : S -> S) : M S unit := fun s => (f s, Ok tt).

(** [range(n)] of a Python int. *)
Definition range (n : Z) : list Z := map Z.of_nat (seq 0 (Z.to_nat n)).

(** Lookup in a dict literal, kept as its list of items. *)
Fixpoint dict_get {V} (d : list (Z * V)) (k : Z) : option V :=
  match d with
  | [] => None
  | (k', v) :: d' => if k =? k' then Some v else dict_get d' k
  end.

End Py.

Import Py.

Declare Scope py_scope.
Delimit Scope py_scope with py.
Notation "x <- m ;; k" := (bind m (fun x => k))
  (at level 61, m at next level, right associativity) : py_scope.
Notation "m ;; k" := (bind m (fun _ => k))
  (at level 61, right associativity) : py_scope.
Local Open Scope py_scope.

(** ** Data *)

Record Point : Type := { px : float; py : float }.

Record PolygonObstacle : Type := { points : list Point }.

Record Target : Type := { point : Point; radius : float }.

(** The state tuple [(ball.x, ball.y, ball.xdot, ball.ydot)]. *)
Definition State : Type := (float * float * float * float)%type.

(** The parsed configuration document. *)
Record Config : Type := {
  cfg_seed : Z;
  cfg_step_duration : Z;
  cfg_drag : float;
  cfg_obstacles : list (list (float * float));
  cfg_target_location : float * float;
  cfg_target_radius : float;
  cfg_ball_starts : list (float * float);
  cfg_ball_radius : float
}.

(** ** Interfaces of the imported classes *)

(** What the environment uses of a [Ball]: its four attributes, its
    constructor and its methods.  [ball_step (Some n)] is [ball.step(n)],
    [ball_step None] is [ball.step()]. *)
Class BallOps (B : Type) : Type := {
  new_ball : Point -> float -> B;
  ball_x : B -> float;
  ball_y : B -> float;
  ball_xdot : B -> float;
  ball_ydot : B -> float;
  add_impulse : float -> float -> B -> B;
  ball_step : option Z -> B -> B;
  set_velocity : Point -> B -> B;
  add_drag : float -> B -> B;
  get_center : B -> Point
}.

(** What the environment uses of obstacles and of the target. *)
Class Physics (B : Type) : Type := {
  obstacle_collision : PolygonObstacle -> B -> bool;
  collision_effect : PolygonObstacle -> B -> Point;
  target_collision : Target -> B -> bool
}.

(** The process-wide generator of Python's [random] module. *)
Class RandomGen (G : Type) : Type := {
  random_seed : Z -> G;
  randbelow : nat -> G -> nat * G
}.

(** [random.choice(seq)]: [IndexError] on an empty sequence, otherwise
    [seq[randbelow(len(seq))]]. *)
Definition random_choice {G} `{RandomGen G} {A} (l : list A) : M G A :=
  fun g =>
    match l with
    | [] => (g, Raise IndexError)
    | _ :: _ =>
        let (k, g') := randbelow (length l) g in
        match nth_error l k with
        | Some a => (g', Ok a)
        | None => (g', Raise IndexError)
        end
    end.

(** ** The environment *)

Definition ACTION_DICT : list (Z * (float * float)) :=
  [ (0, (1.0, 0.0)%float);
    (1, (0.0, 1.0)%float);
    (2, (-1.0, 0.0)%float);
    (3, (0.0, -1.0)%float);
    (4, (0.0, 0.0)%float) ].

Definition THRUST_PENALTY : float := (-5.0)%float.
Definition NOP_PENALTY : float := (-1.0)%float.

(** The impulse direction of an action in the words of the specification:
    [{(1,0),(0,1),(-1,0),(0,-1),(0,0)}] for the actions 0 to 4. *)
Definition impulse_direction (action : Z) : float * float :=
  match action with
  | 0 => (1.0, 0.0)
  | 1 => (0.0, 1.0)
  | 2 => (-1.0, 0.0)
  | 3 => (0.0, -1.0)
  | _ => (0.0, 0.0)
  end%float.

Record PynBall (B : Type) : Type := {
  config : Config;
  step_duration : Z;
  drag : float;
  obstacles : list PolygonObstacle;
  target : Target;
  reset_flag : bool;
  ball : option B
}.

Arguments Build_PynBall {B}.

Definition set_ball {B} (b : option B) (self : PynBall B) : PynBall B :=
  Build_PynBall self.(config) self.(step_duration) self.(drag)
    self.(obstacles) self.(target) self.(reset_flag) b.

Definition set_reset_flag {B} (f : bool) (self : PynBall B) : PynBall B :=
  Build_PynBall self.(config) self.(step_duration) self.(drag)
    self.(obstacles) self.(target) f self.(ball).

Definition mk_point (p : float * float) : Point := {| px := fst p; py := snd p |}.

(** [PynBall.__init__], after the configuration file has been parsed: seeds
    the process-wide generator and builds the obstacles and the target. *)
Definition init {B G} `{RandomGen G} (cfg : Config) (g : G) : PynBall B * G :=
  ({| config := cfg;
      step_duration := cfg.(cfg_step_duration);
      drag := cfg.(cfg_drag);
      obstacles :=
        map (fun obstacle => {| points := map mk_point obstacle |})
            cfg.(cfg_obstacles);
      target := {| point := mk_point cfg.(cfg_target_location);
                   radius := cfg.(cfg_target_radius) |};
      reset_flag := false;
      ball := None |},
   random_seed cfg.(cfg_seed)).

Section Env.

Context {B : Type} `{BallOps B} `{Physics B}.

(** [self.ball.m(...)] for a mutating method [m]; a [None] ball has no
    methods. *)
Definition ball_call (f : B -> B) : M (PynBall B) unit :=
  fun self =>
    match self.(ball) with
    | Some b => (set_ball (Some (f b)) self, Ok tt)
    | None => (self, Raise AttributeError)
    end.

(** Reading from [self.ball]. *)
Definition ball_read {A} (f : B -> A) : M (PynBall B) A :=
  fun self =>
    match self.(ball) with
    | Some b => (self, Ok (f b))
    | None => (self, Raise AttributeError)
    end.

Definition ball_state (b : B) : State :=
  (ball_x b, ball_y b, ball_xdot b, ball_ydot b).

(** [PynBall.reset]; the generator is the process-wide one. *)
Definition reset {G} `{RandomGen G} (starting_ball : option B)
  : M (PynBall B * G) State :=
  fun '(self, g) =>
    match starting_ball with
    | None =>
        match random_choice self.(config).(cfg_ball_starts) g with
        | (g', Ok start) =>
            let b := new_ball (mk_point start) self.(config).(cfg_ball_radius) in
            ((set_reset_flag true (set_ball (Some b) self), g'),
             Ok (ball_state b))
        | (g', Raise e) => ((self, g'), Raise e)
        end
    | Some b =>
        ((set_reset_flag true (set_ball (Some b) self), g), Ok (ball_state b))
    end.

(** [PynBall.terminal]. *)
Definition terminal : M (PynBall B) bool :=
  fun self =>
    match self.(ball) with
    | Some b => (self, Ok (target_collision self.(target) b))
    | None => (self, Raise AttributeError)
    end.

(** The loop over [self.obstacles] of [step]: the number of obstacles that
    report a collision and the last one that did. *)
Definition count_collisions (obs : list PolygonObstacle) (b : B)
  : Z * option PolygonObstacle :=
  fold_left
    (fun (acc : Z * option PolygonObstacle) obstacle =>
       let (num_collisions, collidor) := acc in
       if obstacle_collision obstacle b
       then (num_collisions + 1, Some obstacle)
       else (num_collisions, collidor))
    obs (0, None).

(** Substep [i] of [step] up to the test of the target: advance the ball,
    count the collisions and resolve them. *)
Definition collide (i : Z) : M (PynBall B) unit :=
  step_duration <- get (@step_duration B) ;;
  ball_call (ball_step (Some step_duration)) ;;
  obs <- get (@obstacles B) ;;
  cc <- ball_read (count_collisions obs) ;;
  let (num_collisions, collidor) := cc : Z * option PolygonObstacle in
  if num_collisions =? 1 then
    match collidor with
    | None => raise AttributeError
    | Some c =>
        new_vel <- ball_read (collision_effect c) ;;
        ball_call (set_velocity new_vel) ;;
        if i =? step_duration - 1
        then ball_call (ball_step None)
        else ret tt
    end
  else if num_collisions >? 1 then
    new_vel <- ball_read (fun b => {| px := - ball_xdot b; py := - ball_ydot b |}%float) ;;
    ball_call (set_velocity new_vel)
  else ret tt.

(** The substep loop of [step] over the indices [idxs]; the value is the
    local [terminal]. *)
Fixpoint for_substeps (idxs : list Z) : M (PynBall B) bool :=
  match idxs with
  | [] => ret false
  | i :: rest =>
      collide i ;;
      t <- terminal ;;
      if t : bool
      then modify (set_reset_flag false) ;; ret true
      else for_substeps rest
  end.

Definition in_bounds (p : Point) : bool :=
  ((0.0 <? p.(px)) && (p.(px) <? 1.0) && ((0.0 <? p.(py)) && (p.(py) <? 1.0)))%float.

(** [PynBall.check_bounds]. *)
Definition check_bounds : M (PynBall B) unit :=
  point <- ball_read get_center ;;
  if negb (in_bounds point) then raise RuntimeError else ret tt.

(** [PynBall.step].  The fourth component of the returned tuple is always
    [None] and is left out. *)
Definition step (action : Z) : M (PynBall B) (State * float * bool) :=
  flag <- get (@reset_flag B) ;;
  if negb flag then raise AssertionError else
  match dict_get ACTION_DICT action with
  | None => raise KeyError
  | Some (x_impulse, y_impulse) =>
      let reward := if action =? 4 then NOP_PENALTY else THRUST_PENALTY in
      ball_call (add_impulse x_impulse y_impulse) ;;
      step_duration <- get (@step_duration B) ;;
      terminal <- for_substeps (range step_duration) ;;
      drag <- get (@drag B) ;;
      ball_call (add_drag drag) ;;
      check_bounds ;;
      current_state <- ball_read ball_state ;;
      ret (current_state, reward, terminal)
  end.

End Env.

(** ** The imported classes, from the specification *)

Module Model.

Local Open Scope float_scope.

(** Modelled from the spec: the class [Ball] of [pynball/ball.py],
    [{x, y, xdot, ydot, radius: float}], created with zero velocity. *)
Record Ball : Type := {
  x : float;
  y : float;
  xdot : float;
  ydot : float;
  radius : float
}.

(** A Python int as a float, for step counts below [2^63]. *)
Definition float_of_Z (n : Z) : float :=
  if (n <? 0)%Z then - of_uint63 (Uint63.of_Z (- n)) else of_uint63 (Uint63.of_Z n).

(** Modelled from the spec: [add_impulse(dx, dy)] adds [dx * k] and [dy * k]
    to the velocity, for the thrust constant [k]. *)
Definition add_impulse (k dx dy : float) (b : Ball) : Ball :=
  {| x := b.(x); y := b.(y);
     xdot := b.(xdot) + dx * k; ydot := b.(ydot) + dy * k;
     radius := b.(radius) |}.

(** Modelled from the spec: [step(substeps)] moves the ball by
    [xdot / substeps] and [ydot / substeps]; without an argument it is one
    full-displacement step. *)
Definition step (substeps : option Z) (b : Ball) : Ball :=
  let n := match substeps with Some n => float_of_Z n | None => 1.0 end in
  {| x := b.(x) + b.(xdot) / n; y := b.(y) + b.(ydot) / n;
     xdot := b.(xdot); ydot := b.(ydot); radius := b.(radius) |}.

(** Modelled from the spec: [set_velocity(v)] overwrites [(xdot, ydot)]. *)
Definition set_velocity (v : Point) (b : Ball) : Ball :=
  {| x := b.(x); y := b.(y); xdot := v.(px); ydot := v.(py);
     radius := b.(radius) |}.

(** Modelled from the spec: [add_drag(d)] multiplies [(xdot, ydot)] by
    [1 - d]. *)
Definition add_drag (d : float) (b : Ball) : Ball :=
  {| x := b.(x); y := b.(y);
     xdot := b.(xdot) * (1.0 - d); ydot := b.(ydot) * (1.0 - d);
     radius := b.(radius) |}.

(** Modelled from the spec: [get_center()] is the current position. *)
Definition get_center (b : Ball) : Point := {| px := b.(x); py := b.(y) |}.

Definition new (p : Point) (r : float) : Ball :=
  {| x := p.(px); y := p.(py); xdot := 0.0; ydot := 0.0; radius := r |}.

Definition ops (k : float) : BallOps Ball :=
  Build_BallOps new x y xdot ydot (add_impulse k) step set_velocity add_drag
    get_center.

(** *** Geometry *)

Definition sub (p q : Point) : Point :=
  {| px := p.(px) - q.(px); py := p.(py) - q.(py) |}.

Definition dot (p q : Point) : float := p.(px) * q.(px) + p.(py) * q.(py).

Definition norm (p : Point) : float := sqrt (dot p p).

Definition scale (k : float) (p : Point) : Point :=
  {| px := k * p.(px); py := k * p.(py) |}.

Definition unit (p : Point) : Point := scale (1.0 / norm p) p.

(** The edges of a closed polygon: consecutive points, the last one joined
    to the first. *)
Definition edges (o : PolygonObstacle) : list (Point * Point) :=
  match o.(points) with
  | [] => []
  | p :: ps => combine (p :: ps) (ps ++ [p])
  end.

(** The parameter of the projection of [c] on the line through [a] and
    [b], and its clamping to the segment. *)
Definition project (e : Point * Point) (c : Point) : float :=
  let (a, b) := e in dot (sub c a) (sub b a) / dot (sub b a) (sub b a).

Definition clamp (t : float) : float :=
  if t <? 0.0 then 0.0 else if 1.0 <? t then 1.0 else t.

Definition edge_distance (e : Point * Point) (c : Point) : float :=
  let (a, b) := e in
  let t := clamp (project e c) in
  norm (sub c {| px := a.(px) + t * (b.(px) - a.(px));
                 py := a.(py) + t * (b.(py) - a.(py)) |}).

(** Modelled from the spec: [PolygonObstacle.collision(ball)], true when
    the distance from the centre of the ball to some edge segment is less
    than the radius of the ball. *)
Definition obstacle_collision (o : PolygonObstacle) (b : Ball) : bool :=
  existsb (fun e => edge_distance e (get_center b) <? b.(radius)) (edges o).

Definition edge_normal (e : Point * Point) : Point :=
  let (a, b) := e in
  unit {| px := b.(py) - a.(py); py := - (b.(px) - a.(px)) |}.

(** Every edge with the edge before it and the edge after it. *)
Definition neighbours (es : list (Point * Point))
  : list ((Point * Point) * (Point * Point) * (Point * Point)) :=
  match es with
  | [] => []
  | e :: rest =>
      combine (combine (removelast (last es e :: es)) es) (rest ++ [e])
  end.

(** The edge nearest to [c], the first one among equals. *)
Fixpoint nearest (c : Point)
  (l : list ((Point * Point) * (Point * Point) * (Point * Point)))
  : option ((Point * Point) * (Point * Point) * (Point * Point)) :=
  match l with
  | [] => None
  | t :: l' =>
      match nearest c l' with
      | None => Some t
      | Some t' =>
          if edge_distance (snd (fst t')) c <? edge_distance (snd (fst t)) c
          then Some t' else Some t
      end
  end.

Definition add (p q : Point) : Point :=
  {| px := p.(px) + q.(px); py := p.(py) + q.(py) |}.

(** Modelled from the spec: [PolygonObstacle.collision_effect(ball)], the
    velocity reflected about the unit normal [n] of the nearest edge,
    [v - 2 (v . n) n]; when the nearest feature is a vertex, [n] is the
    normalised sum of the normals of the two edges that share it. *)
Definition collision_effect (o : PolygonObstacle) (b : Ball) : Point :=
  let v := {| px := b.(xdot); py := b.(ydot) |} in
  match nearest (get_center b) (neighbours (edges o)) with
  | None => v
  | Some (before, e, after) =>
      let t := project e (get_center b) in
      let n :=
        if t <=? 0.0 then unit (add (edge_normal before) (edge_normal e))
        else if 1.0 <=? t then unit (add (edge_normal e) (edge_normal after))
        else edge_normal e in
      sub v (scale (2.0 * dot v n) n)
  end.

(** Modelled from the spec: [Target.collision(ball)], true when the centres
    are closer than the sum of the radii. *)
Definition target_collision (t : Target) (b : Ball) : bool :=
  let (centre, target_radius) := t in
  norm (sub (get_center b) centre) <? target_radius + b.(radius).

Definition physics : Physics Ball :=
  Build_Physics obstacle_collision collision_effect target_collision.

End Model.

(** ** A recording ball *)

(** The calls the environment makes on its ball. *)
Inductive Call : Type :=
| CAddImpulse (dx dy : float)
| CStep (substeps : option Z)
| CSetVelocity (v : Point)
| CAddDrag (d : float).

(** A ball together with the calls made on it so far, oldest first.  The
    environment only sees the interface, so it runs on a recording ball as
    on the ball it wraps, and the record tells which methods it called. *)
Definition Spy (B : Type) : Type := (B * list Call)%type.

Section Recording.

Context {B : Type} `{BallOps B} `{Physics B}.

Definition recorded (c : Call) (f : B -> B) (s : Spy B) : Spy B :=
  (f (fst s), snd s ++ [c]).

#[export] Instance spy_ops : BallOps (Spy B) :=
  {| new_ball p r := (new_ball p r, []);
     ball_x s := ball_x (fst s);
     ball_y s := ball_y (fst s);
     ball_xdot s := ball_xdot (fst s);
     ball_ydot s := ball_ydot (fst s);
     add_impulse dx dy := recorded (CAddImpulse dx dy) (add_impulse dx dy);
     ball_step n := recorded (CStep n) (ball_step n);
     set_velocity v := recorded (CSetVelocity v) (set_velocity v);
     add_drag d := recorded (CAddDrag d) (add_drag d);
     get_center s := get_center (fst s) |}.

#[export] Instance spy_physics : Physics (Spy B) :=
  {| obstacle_collision o s := obstacle_collision o (fst s);
     collision_effect o s := collision_effect o (fst s);
     target_collision t s := target_collision t (fst s) |}.

(** The environment with the record of its ball dropped. *)
Definition erase (self : PynBall (Spy B)) : PynBall B :=
  Build_PynBall self.(config) self.(step_duration) self.(drag)
    self.(obstacles) self.(target) self.(reset_flag)
    (option_map fst self.(ball)).

(** The environment with its ball wrapped, nothing recorded yet. *)
Definition record_calls (self : PynBall B) : PynBall (Spy B) :=
  Build_PynBall self.(config) self.(step_duration) self.(drag)
    self.(obstacles) self.(target) self.(reset_flag)
    (option_map (fun b => (b, [])) self.(ball)).

(** The calls recorded on the ball of the environment. *)
Definition calls (self : PynBall (Spy B)) : list Call :=
  match self.(ball) with
  | Some s => snd s
  | None => []
  end.

End Recording.

(** The calls a substep makes: [step(n)], [set_velocity] and the bonus
    [step()]. *)
Definition substep_call (c : Call) : Prop :=
  match c with
  | CStep _ | CSetVelocity _ => True
  | CAddImpulse _ _ | CAddDrag _ => False
  end.

Definition is_substep_start (c : Call) : bool :=
  match c with
  | CStep (Some _) => true
  | _ => false
  end.

Definition is_bonus_step (c : Call) : bool :=
  match c with
  | CStep None => true
  | _ => false
  end.

Definition is_add_impulse (c : Call) : bool :=
  match c with
  | CAddImpulse _ _ => true
  | _ => false
  end.

Definition is_add_drag (c : Call) : bool :=
  match c with
  | CAddDrag _ => true
  | _ => false
  end.

(** ** Episodes *)

Section Episodes.

Context {B : Type} `{BallOps B} `{Physics B}.

(** The collision handling of the substeps [idxs] one after the other, the
    target left untested. *)
Fixpoint collides (idxs : list Z) : M (PynBall B) unit :=
  match idxs with
  | [] => ret tt
  | i :: rest => collide i ;; collides rest
  end.

(** The outcome of the target test after the collision handling of the
    substeps [idxs]. *)
Definition target_after (idxs : list Z) (self : PynBall B) : bool :=
  match (collides idxs ;; terminal) self with
  | (_, Ok t) => t
  | (_, Raise _) => false
  end.

(** The obstacles that report a collision with [b], in the order of
    [self.obstacles]. *)
Definition colliding (obs : list PolygonObstacle) (b : B) : list PolygonObstacle :=
  filter (fun obstacle => obstacle_collision obstacle b) obs.

(** The tie-break policy in the words of the specification, on the ball
    [b1] that has been advanced: no collision leaves it alone, exactly one
    colliding obstacle reflects it (with a bonus step after the final
    substep), more than one reverses its velocity. *)
Definition resolve (n : Z) (obs : list PolygonObstacle) (i : Z) (b1 : B) : B :=
  match colliding obs b1 with
  | [] => b1
  | [c] =>
      let b2 := set_velocity (collision_effect c b1) b1 in
      if i =? n - 1 then ball_step None b2 else b2
  | _ :: _ :: _ =>
      set_velocity {| px := - ball_xdot b1; py := - ball_ydot b1 |}%float b1
  end.

(** The calls on the ball that the policy amounts to. *)
Definition resolve_calls (n : Z) (obs : list PolygonObstacle) (i : Z) (b1 : B)
  : list Call :=
  match colliding obs b1 with
  | [] => []
  | [c] =>
      CSetVelocity (collision_effect c b1)
        :: (if i =? n - 1 then [CStep None] else [])
  | _ :: _ :: _ =>
      [CSetVelocity {| px := - ball_xdot b1; py := - ball_ydot b1 |}%float]
  end.

(** The substep loop on the ball alone: the ball it leaves and whether the
    target was hit. *)
Fixpoint loop (n : Z) (obs : list PolygonObstacle) (tgt : Target)
  (idxs : list Z) (b : B) : B * bool :=
  match idxs with
  | [] => (b, false)
  | i :: rest =>
      let b' := resolve n obs i (ball_step (Some n) b) in
      if target_collision tgt b' then (b', true) else loop n obs tgt rest b'
  end.

(** The calls on the ball that the substep loop amounts to. *)
Fixpoint loop_calls (n : Z) (obs : list PolygonObstacle) (tgt : Target)
  (idxs : list Z) (b : B) : list Call :=
  match idxs with
  | [] => []
  | i :: rest =>
      let b1 := ball_step (Some n) b in
      let b' := resolve n obs i b1 in
      CStep (Some n) :: resolve_calls n obs i b1
        ++ (if target_collision tgt b' then [] else loop_calls n obs tgt rest b')
  end.

(** The environment once the substep loop has left the ball [fst r] and
    the local [terminal] at [snd r]. *)
Definition after_loop (self : PynBall B) (r : B * bool) : PynBall B :=
  Build_PynBall self.(config) self.(step_duration) self.(drag)
    self.(obstacles) self.(target)
    (if snd r then false else self.(reset_flag)) (Some (fst r)).

(** The position in [idxs] of the first substep whose target test is
    true, if there is one. *)
Definition first_hit (idxs : list Z) (self : PynBall B) : option nat :=
  find (fun j => target_after (firstn (S j) idxs) self) (seq 0 (length idxs)).

(** What a caller does with an environment, and what it observes. *)
Inductive Command : Type :=
| Reset
| Step (action : Z).

Inductive Observation : Type :=
| Started (r : result State)
| Stepped (r : result (State * float * bool)).

(** The commands carried out in turn, whatever the outcome of the earlier
    ones; [reset()] draws from the process-wide generator. *)
Fixpoint observe {G} `{RandomGen G} (commands : list Command)
  (w : PynBall B * G) : list Observation :=
  match commands with
  | [] => []
  | Reset :: rest =>
      let (w', r) := reset None w in Started r :: observe rest w'
  | Step action :: rest =>
      let (self', r) := step action (fst w) in
      Stepped r :: observe rest (self', snd w)
  end.

(** A run: construct the environment from the configuration, then carry
    out the commands.  [g] is the state of the process-wide generator when
    the run starts. *)
Definition run {G} `{RandomGen G} (cfg : Config) (commands : list Command)
  (g : G) : list Observation :=
  observe commands (init cfg g).

End Episodes.

(** ** What a caller can reach *)

Section Reach.

Context {B : Type} `{BallOps B} `{Physics B}.

(** The attributes that only the constructor sets. *)
Definition same_world (s s' : PynBall B) : Prop :=
  s.(config) = s'.(config)
  /\ s.(step_duration) = s'.(step_duration)
  /\ s.(drag) = s'.(drag)
  /\ s.(obstacles) = s'.(obstacles)
  /\ s.(target) = s'.(target).

(** The environment with another list of obstacles. *)
Definition with_obstacles (obs : list PolygonObstacle) (self : PynBall B)
  : PynBall B :=
  Build_PynBall self.(config) self.(step_duration) self.(drag) obs
    self.(target) self.(reset_flag) self.(ball).

(** The environments, with the state of the process-wide generator, that
    a caller gets to through the constructor and the methods.  The
    generator is shared with the rest of the process, and a ball handed
    to [reset] stays in the hands of the caller, who may go on calling its
    methods. *)
Inductive reachable {G} `{RandomGen G} : PynBall B * G -> Prop :=
| reach_init cfg g : reachable (init cfg g)
| reach_reset starting_ball w : reachable w -> reachable (fst (reset starting_ball w))
| reach_step action self g :
    reachable (self, g) -> reachable (fst (step action self), g)
| reach_terminal self g :
    reachable (self, g) -> reachable (fst (terminal self), g)
| reach_check_bounds self g :
    reachable (self, g) -> reachable (fst (check_bounds self), g)
| reach_generator self g g' : reachable (self, g) -> reachable (self, g')
| reach_ball self g b b' :
    reachable (self, g) -> self.(ball) = Some b ->
    reachable (set_ball (Some b') self, g).

End Reach.

(** ** Runs inside a process *)

Section Process.

Context {B : Type} `{BallOps B} `{Physics B}.

(** The environment and the generator once the commands are carried
    out. *)
Fixpoint world_after {G} `{RandomGen G} (commands : list Command)
  (w : PynBall B * G) : PynBall B * G :=
  match commands with
  | [] => w
  | Reset :: rest => world_after rest (fst (reset None w))
  | Step action :: rest =>
      world_after rest (fst (step action (fst w)), snd w)
  end.

(** What happens in the process while an environment is in use: the
    caller calls the environment, or other code (another environment
    among it) draws from the process-wide generator or seeds it again. *)
Inductive Move (G : Type) : Type :=
| Does (c : Command)
| Elsewhere (f : G -> G).

Arguments Does {G} c.
Arguments Elsewhere {G} f.

(** What the caller of the environment observes among the moves. *)
Fixpoint observe_among {G} `{RandomGen G} (moves : list (Move G))
  (w : PynBall B * G) : list Observation :=
  match moves with
  | [] => []
  | Does Reset :: rest =>
      let (w', r) := reset None w in Started r :: observe_among rest w'
  | Does (Step action) :: rest =>
      let (self', r) := step action (fst w) in
      Stepped r :: observe_among rest (self', snd w)
  | Elsewhere f :: rest => observe_among rest (fst w, f (snd w))
  end.

(** The calls on the environment among the moves. *)
Fixpoint commands_of {G} (moves : list (Move G)) : list Command :=
  match moves with
  | [] => []
  | Does c :: rest => c :: commands_of rest
  | Elsewhere _ :: rest => commands_of rest
  end.

Definition calls_reset {G} (m : Move G) : bool :=
  match m with
  | Does Reset => true
  | _ => false
  end.

(** No other use of the generator comes before a [reset()] of the
    environment. *)
Fixpoint undisturbed {G} (moves : list (Move G)) : bool :=
  match moves with
  | [] => true
  | Does _ :: rest => undisturbed rest
  | Elsewhere _ :: rest => negb (existsb calls_reset rest)
  end.

(** Two environments constructed one after the other from the same
    configuration, then [reset()] in turn: what each [reset()] returns. *)
Definition reset_both {G} `{RandomGen G} (cfg : Config) (g : G)
  : result State * result State :=
  let (first, g1) := init (B := B) cfg g in
  let (second, g2) := init (B := B) cfg g1 in
  let (w1, r1) := reset None (first, g2) in
  let (w2, r2) := reset None (second, snd w1) in
  (r1, r2).

End Process.

Arguments Does {G} c.
Arguments Elsewhere {G} f.

(** ** Scenes *)

Module Scene.

Local Open Scope float_scope.

(** A small linear congruential generator, standing in for the generator
    of the interpreter when a scene is run. *)
#[export] Instance lcg : RandomGen Z :=
  {| random_seed a := a;
     randbelow n g :=
       let g' := ((g * 1103515245 + 12345) mod 2147483648)%Z in
       (Z.to_nat (g' mod Z.of_nat n), g') |}.

#[export] Instance ball_ops : BallOps Model.Ball := Model.ops 0.2.
#[export] Instance physics : Physics Model.Ball := Model.physics.

Definition square (x0 y0 x1 y1 : float) : list (float * float) :=
  [ (x0, y0); (x1, y0); (x1, y1); (x0, y1) ].

(** One square obstacle spanning (0.4,0.4)-(0.6,0.6), the target at
    (0.9,0.9), the ball starting at (0.2,0.2). *)
Definition cfg : Config :=
  {| cfg_seed := 0;
     cfg_step_duration := 20;
     cfg_drag := 0.0;
     cfg_obstacles := [ square 0.4 0.4 0.6 0.6 ];
     cfg_target_location := (0.9, 0.9);
     cfg_target_radius := 0.01;
     cfg_ball_starts := [ (0.2, 0.2) ];
     cfg_ball_radius := 0.01 |}.

(** Two squares that leave a narrow gap around x = 0.5. *)
Definition cfg_gap : Config :=
  {| cfg_seed := 0;
     cfg_step_duration := 20;
     cfg_drag := 0.0;
     cfg_obstacles := [ square 0.2 0.4 0.495 0.6; square 0.505 0.4 0.8 0.6 ];
     cfg_target_location := (0.9, 0.9);
     cfg_target_radius := 0.01;
     cfg_ball_starts := [ (0.5, 0.2) ];
     cfg_ball_radius := 0.01 |}.

Definition ball_at (x y xdot ydot : float) : Model.Ball :=
  {| Model.x := x; Model.y := y; Model.xdot := xdot; Model.ydot := ydot;
     Model.radius := 0.01 |}.

(** The environment of [c] after [reset(b)]. *)
Definition started {B} `{BallOps B} (c : Config) (b : B) : PynBall B :=
  fst (fst (reset (Some b) (init c 0%Z))).

(** The ball at rest at the start location. *)
Definition at_rest : PynBall Model.Ball := started cfg (ball_at 0.2 0.2 0.0 0.0).

(** The ball flying towards the right edge of the field. *)
Definition leaving : PynBall Model.Ball := started cfg (ball_at 0.9 0.5 1.0 0.0).

(** The ball about to touch the left side of the square. *)
Definition touching : PynBall Model.Ball := started cfg (ball_at 0.387 0.5 0.1 0.0).

(** The ball entering the gap between the two squares. *)
Definition wedged : PynBall Model.Ball := started cfg_gap (ball_at 0.5 0.35 0.0 0.9).

(** The ball on its way into the target. *)
Definition scoring : PynBall Model.Ball := started cfg (ball_at 0.8 0.9 0.5 0.0).

End Scene.

(** ** More scenes *)

Module Cases.

Import Scene.

Local Open Scope float_scope.

(** The configuration of [cfg] with a substep count of zero. *)
Definition cfg_frozen : Config :=
  {| cfg_seed := 0;
     cfg_step_duration := 0;
     cfg_drag := 0.0;
     cfg_obstacles := [ square 0.4 0.4 0.6 0.6 ];
     cfg_target_location := (0.9, 0.9);
     cfg_target_radius := 0.01;
     cfg_ball_starts := [ (0.2, 0.2) ];
     cfg_ball_radius := 0.01 |}.

(** The ball resting on the target of an environment that never runs a
    substep. *)
Definition frozen : PynBall Model.Ball := started cfg_frozen (ball_at 0.9 0.9 0.0 0.0).

(** The configuration of [cfg] without any start location. *)
Definition cfg_no_start : Config :=
  {| cfg_seed := 0;
     cfg_step_duration := 20;
     cfg_drag := 0.0;
     cfg_obstacles := [ square 0.4 0.4 0.6 0.6 ];
     cfg_target_location := (0.9, 0.9);
     cfg_target_radius := 0.01;
     cfg_ball_starts := [];
     cfg_ball_radius := 0.01 |}.

(** The configuration of [cfg] with three start locations. *)
Definition cfg_starts : Config :=
  {| cfg_seed := 5;
     cfg_step_duration := 20;
     cfg_drag := 0.0;
     cfg_obstacles := [ square 0.4 0.4 0.6 0.6 ];
     cfg_target_location := (0.9, 0.9);
     cfg_target_radius := 0.01;
     cfg_ball_starts := [ (0.2, 0.2); (0.2, 0.8); (0.8, 0.2) ];
     cfg_ball_radius := 0.01 |}.

End Cases.

(** ** The interactive entry point *)

(** [pinball/__main__.py]: the choice of the configuration file and the
    loop that turns the events of each frame into one action.  The
    window, the clock and the drawing are left out; the events of the
    successive frames are given as a list.  The key codes and event
    types of pygame and the environment class [PinballEnv] are taken as
    parameters. *)
Module Main.

Import String.

Definition config_dict : list (Z * string) :=
  [ (1, "very_easy"%string); (2, "easy"%string); (3, "hard"%string) ].

(** The name of the configuration file for the number the user entered. *)
Definition config_file (difficulty : Z) : result string :=
  let difficulty :=
    if negb (existsb (Z.eqb difficulty) [1; 2; 3]) then 2 else difficulty in
  match dict_get config_dict difficulty with
  | Some name => Ok (name ++ "_config.toml")%string
  | None => Raise KeyError
  end.

(** An event of pygame: its type and, for a key event, the key. *)
Record Event : Type := { ev_type : Z; ev_key : Z }.

Definition noop : Z := 4.

Section Loop.

(** [pygame.QUIT], [pygame.KEYDOWN] and the four arrow keys. *)
Variables QUIT KEYDOWN K_RIGHT K_UP K_LEFT K_DOWN : Z.

(** The dict literal [actions], as its items in the order written; a dict
    literal keeps the last value written for a key. *)
Definition actions : list (Z * Z) :=
  [ (K_RIGHT, 0); (K_UP, 3); (K_LEFT, 2); (K_DOWN, 1) ].

(** [actions.get(key, noop)]. *)
Definition actions_get (key : Z) : Z :=
  match dict_get (rev actions) key with
  | Some a => a
  | None => noop
  end.

(** The loop over the events of one frame: [running] and [user_action]
    when it ends. *)
Definition poll (events : list Event) (running : bool) : bool * Z :=
  fold_left
    (fun (acc : bool * Z) event =>
       let (running, user_action) := acc in
       let running := if event.(ev_type) =? QUIT then false else running in
       let user_action :=
         if event.(ev_type) =? KEYDOWN then actions_get event.(ev_key)
         else user_action in
       (running, user_action))
    events (running, noop).

(** The environment: its state, [env.step] and [in env.action_space]. *)
Variable Env : Type.
Variable env_step : Z -> Env -> Env * result (float * bool).
Variable in_action_space : Z -> bool.

(** The variables of [main] that the loop updates.  [reward] starts as
    the int 0 and becomes a float with the first reward added; it is kept
    as a float, which has the same value. *)
Record Loop : Type := {
  env : Env;
  reward : float;
  running : bool;
  terminal : bool
}.

(** One pass through the body of the [while] loop. *)
Definition frame (events : list Event) (s : Loop) : result Loop :=
  let (running, user_action) := poll events s.(running) in
  let stepped :=
    if in_action_space user_action
    then match env_step user_action s.(env) with
         | (env', Ok (r, terminal)) => Ok (env', r, terminal)
         | (_, Raise e) => Raise e
         end
    else Ok (s.(env), 0.0%float, s.(terminal)) in
  match stepped with
  | Ok (env', r, terminal) =>
      let running := if terminal then false else running in
      Ok {| env := env'; reward := (s.(reward) + r)%float;
            running := running; terminal := terminal |}
  | Raise e => Raise e
  end.

(** The [while running] loop over the events of the successive frames;
    it stops early when [frames] runs out. *)
Fixpoint main_loop (frames : list (list Event)) (s : Loop) : result Loop :=
  match frames with
  | [] => Ok s
  | events :: rest =>
      if s.(running)
      then match frame events s with
           | Ok s' => main_loop rest s'
           | Raise e => Raise e
           end
      else Ok s
  end.

(** The last key pressed among the events, if any. *)
Definition last_key (events : list Event) : option Z :=
  last (map (fun e => Some e.(ev_key))
          (filter (fun e => e.(ev_type) =? KEYDOWN) events)) None.

Definition has_quit (events : list Event) : bool :=
  existsb (fun e => e.(ev_type) =? QUIT) events.

(** The action of a frame: the one of the last key pressed, [noop] when
    no key was pressed. *)
Definition frame_action (events : list Event) : Z :=
  match last_key events with
  | Some key => actions_get key
  | None => noop
  end.

End Loop.

End Main.

(** ** A session *)

Module Session.

Import Scene.

(** The key codes and event types of pygame 2. *)
Definition K_RIGHT : Z := 1073741903.
Definition K_LEFT : Z := 1073741904.
Definition K_DOWN : Z := 1073741905.
Definition K_UP : Z := 1073741906.
Definition QUIT : Z := 256.
Definition KEYDOWN : Z := 768.

(** A frame in which the right arrow is pressed and the window closed. *)
Definition right_then_quit : list Main.Event :=
  [ {| Main.ev_type := KEYDOWN; Main.ev_key := K_RIGHT |};
    {| Main.ev_type := QUIT; Main.ev_key := 0 |} ].

(** The environment of the scenes behind the interface the loop uses. *)
Definition scene_step (action : Z) (self : PynBall Model.Ball)
  : PynBall Model.Ball * result (float * bool) :=
  match step action self with
  | (self', Ok (_, r, t)) => (self', Ok (r, t))
  | (self', Raise e) => (self', Raise e)
  end.

Definition scene_action_space (action : Z) : bool :=
  (0 <=? action)%Z && (action <=? 4)%Z.

(** The variables of the loop when it starts on the ball at rest. *)
Definition loop_start : Main.Loop (PynBall Model.Ball) :=
  {| Main.env := at_rest; Main.reward := 0.0; Main.running := true;
     Main.terminal := false |}.

(** The variables of the loop when it starts on the ball on its way into
    the target. *)
Definition loop_scoring : Main.Loop (PynBall Model.Ball) :=
  {| Main.env := scoring; Main.reward := 0.0; Main.running := true;
     Main.terminal := false |}.

End Session.

(** * Properties *)

(** ** The loop over the obstacles and the substep *)

Section Facts.

Context {B : Type} `{BallOps B} `{Physics B}.

Lemma last_cons {A} (l : list A) (a d : A) : last (a :: l) d = last l a.
Proof.
  revert a d. induction l as [|a' l IH]; intros a d; [reflexivity|].
  change (last (a :: a' :: l) d) with (last (a' :: l) d).
  rewrite (IH a' d). symmetry. apply IH.
Qed.

Lemma count_collisions_from (obs : list PolygonObstacle) (b : B) k c :
  fold_left
    (fun (acc : Z * option PolygonObstacle) obstacle =>
       let (num_collisions, collidor) := acc in
       if obstacle_collision obstacle b
       then (num_collisions + 1, Some obstacle)
       else (num_collisions, collidor))
    obs (k, c)
  = (k + Z.of_nat (length (colliding obs b)),
     last (map Some (colliding obs b)) c).
Proof.
  revert k c. induction obs as [|o obs IH]; intros k c; simpl.
  - f_equal. lia.
  - unfold colliding in *. simpl.
    destruct (obstacle_collision o b) eqn:Ho; rewrite IH.
    + cbn [length map]. rewrite last_cons. f_equal. lia.
    + reflexivity.
Qed.

(** The counter of [step] is the number of colliding obstacles, and
    [collidor] the last of them. *)
Lemma count_collisions_colliding (obs : list PolygonObstacle) (b : B) :
  count_collisions obs b
  = (Z.of_nat (length (colliding obs b)), last (map Some (colliding obs b)) None).
Proof. unfold count_collisions. rewrite count_collisions_from. reflexivity. Qed.

(** A substep, up to the target test, advances the ball and applies the
    tie-break policy; it does not raise. *)
Lemma collide_resolve (self : PynBall B) (i : Z) (b : B) :
  self.(ball) = Some b ->
  collide i self
  = (set_ball
       (Some (resolve self.(step_duration) self.(obstacles) i
                (ball_step (Some self.(step_duration)) b))) self,
     Ok tt).
Proof.
  intros Hb. unfold collide, bind, get, ball_call, ball_read, ret.
  rewrite Hb. cbn [ball set_ball obstacles step_duration].
  rewrite count_collisions_colliding. unfold resolve.
  destruct (colliding _ _) as [|c [|c' l]]; cbn [length map last].
  - reflexivity.
  - change (Z.of_nat 1 =? 1) with true. cbv iota.
    destruct (i =? step_duration self - 1); reflexivity.
  - destruct (Z.eqb_spec (Z.of_nat (S (S (length l)))) 1) as [E|_]; [lia|].
    destruct (Z.gtb_spec (Z.of_nat (S (S (length l)))) 1) as [_|E]; [|lia].
    reflexivity.
Qed.

(** The substep loop never raises: it leaves the ball and the flag of
    [loop]. *)
Lemma for_substeps_loop (idxs : list Z) :
  forall (self : PynBall B) (b : B),
    self.(ball) = Some b ->
    for_substeps idxs self
    = (after_loop self
         (loop self.(step_duration) self.(obstacles) self.(target) idxs b),
       Ok (snd (loop self.(step_duration) self.(obstacles) self.(target) idxs b))).
Proof.
  induction idxs as [|i rest IH]; intros self b Hb.
  - destruct self; simpl in Hb; subst; reflexivity.
  - cbn [for_substeps loop]. unfold bind at 1.
    rewrite (collide_resolve self i Hb).
    set (b' := resolve _ _ _ _).
    unfold bind at 1. unfold terminal at 1. cbn [ball set_ball target].
    destruct (target_collision (target self) b') eqn:Ht.
    + reflexivity.
    + rewrite (IH (set_ball (Some b') self) b' eq_refl). reflexivity.
Qed.

(** A call of [step] that passes the assertion and the lookup of the
    action: the impulse, the substep loop, the drag and the bounds check. *)
Lemma step_valid (self : PynBall B) (action : Z) (dx dy : float) (b : B) :
  self.(reset_flag) = true ->
  dict_get ACTION_DICT action = Some (dx, dy) ->
  self.(ball) = Some b ->
  step action self
  = let r := loop self.(step_duration) self.(obstacles) self.(target)
               (range self.(step_duration)) (add_impulse dx dy b) in
    let b3 := add_drag self.(drag) (fst r) in
    (set_ball (Some b3) (after_loop self r),
     if in_bounds (get_center b3)
     then Ok (ball_state b3,
              (if action =? 4 then NOP_PENALTY else THRUST_PENALTY), snd r)
     else Raise RuntimeError).
Proof.
  intros Hf Ha Hb. unfold step. unfold bind at 1, get at 1.
  rewrite Hf, Ha. cbn [negb]. unfold bind at 1, ball_call at 1. rewrite Hb.
  unfold bind at 1, get at 1. unfold bind at 1.
  rewrite (for_substeps_loop _ (set_ball (Some (add_impulse dx dy b)) self) eq_refl).
  cbn [set_ball step_duration obstacles target].
  set (r := loop _ _ _ _ _). cbv zeta.
  unfold bind at 1, get at 1. unfold bind at 1, ball_call at 1.
  cbn [after_loop ball drag].
  unfold check_bounds, bind, ball_read, raise, ret. cbn [set_ball ball].
  destruct (in_bounds _); reflexivity.
Qed.

Lemma dict_get_ACTION_DICT (action : Z) :
  0 <= action <= 4 ->
  dict_get ACTION_DICT action = Some (impulse_direction action).
Proof.
  intros Ha.
  assert (action = 0 \/ action = 1 \/ action = 2 \/ action = 3 \/ action = 4)
    as [E|[E|[E|[E|E]]]] by lia; subst action; reflexivity.
Qed.

Lemma dict_get_ACTION_DICT_None (action : Z) :
  ~ 0 <= action <= 4 -> dict_get ACTION_DICT action = None.
Proof.
  intros Ha. unfold ACTION_DICT. cbn [dict_get].
  repeat match goal with
         | |- context [action =? ?k] => destruct (Z.eqb_spec action k); [lia|]
         end.
  reflexivity.
Qed.

Lemma dict_get_ACTION_DICT_Some (action : Z) (d : float * float) :
  dict_get ACTION_DICT action = Some d -> 0 <= action <= 4.
Proof.
  intros Hd. destruct (Z_le_dec 0 action) as [Hlo|Hlo];
    [destruct (Z_le_dec action 4) as [Hhi|Hhi]; [lia|]|];
    rewrite dict_get_ACTION_DICT_None in Hd by lia; discriminate.
Qed.

(** A call of [step] that returns passed the assertion and the lookup, on
    an environment that has a ball. *)
Lemma step_Ok_inv (self self' : PynBall B) (action : Z) v :
  step action self = (self', Ok v) ->
  self.(reset_flag) = true
  /\ exists dx dy b,
       dict_get ACTION_DICT action = Some (dx, dy) /\ self.(ball) = Some b.
Proof.
  unfold step. unfold bind at 1, get at 1.
  destruct (reset_flag self); cbn [negb]; [|discriminate].
  destruct (dict_get ACTION_DICT action) as [[dx dy]|]; [|discriminate].
  unfold bind at 1, ball_call at 1.
  destruct (ball self) as [b|]; [|discriminate].
  intros _. split; [reflexivity|]. exists dx, dy, b. split; reflexivity.
Qed.

Lemma step_not_reset (self : PynBall B) (action : Z) :
  self.(reset_flag) = false -> step action self = (self, Raise AssertionError).
Proof.
  intros Hf. unfold step. unfold bind at 1, get at 1. rewrite Hf. reflexivity.
Qed.

Lemma step_no_key (self : PynBall B) (action : Z) :
  self.(reset_flag) = true ->
  dict_get ACTION_DICT action = None ->
  step action self = (self, Raise KeyError).
Proof.
  intros Hf Ha. unfold step. unfold bind at 1, get at 1. rewrite Hf, Ha.
  reflexivity.
Qed.

Lemma step_no_ball (self : PynBall B) (action : Z) (d : float * float) :
  self.(reset_flag) = true ->
  dict_get ACTION_DICT action = Some d ->
  self.(ball) = None ->
  step action self = (self, Raise AttributeError).
Proof.
  intros Hf Ha Hb. unfold step. unfold bind at 1, get at 1. rewrite Hf, Ha.
  destruct d as [dx dy]. cbn [negb]. unfold bind at 1, ball_call at 1.
  rewrite Hb. reflexivity.
Qed.

End Facts.

(** ** The first substep that hits the target *)

Section LoopFacts.

Context {B : Type} {ops : BallOps B} {phys : Physics B}.

Lemma find_map_ext {A A'} (f : A' -> bool) (g : A -> A') (h : A -> bool)
  (l : list A) :
  (forall a, f (g a) = h a) ->
  find f (map g l) = option_map g (find h l).
Proof.
  intros Hfg. induction l as [|a l IH]; [reflexivity|].
  cbn [map find]. rewrite Hfg. destruct (h a); [reflexivity | exact IH].
Qed.

Lemma collides_cons (self : PynBall B) (i : Z) (rest : list Z) (b : B) :
  self.(ball) = Some b ->
  collides (i :: rest) self = collides rest (fst (collide i self)).
Proof.
  intros Hb. cbn [collides]. unfold bind.
  rewrite (collide_resolve self i Hb). reflexivity.
Qed.

Lemma target_after_cons (self : PynBall B) (i : Z) (rest : list Z) (b : B) :
  self.(ball) = Some b ->
  target_after (i :: rest) self = target_after rest (fst (collide i self)).
Proof.
  intros Hb. unfold target_after. unfold bind at 1.
  rewrite (collides_cons self i rest Hb). reflexivity.
Qed.

Lemma first_hit_cons (self : PynBall B) (i : Z) (rest : list Z) (b : B) :
  self.(ball) = Some b ->
  first_hit (i :: rest) self
  = if target_after [i] self then Some 0%nat
    else option_map S (first_hit rest (fst (collide i self))).
Proof.
  intros Hb. unfold first_hit. cbn [length seq find firstn].
  destruct (target_after [i] self); [reflexivity|].
  rewrite <- seq_shift. apply find_map_ext.
  intros j. apply (target_after_cons self i (firstn (S j) rest) Hb).
Qed.

(** The substep loop runs the substeps up to and including the first one
    that hits the target, and clears [reset_flag] there; without a hit it
    runs them all. *)
Lemma for_substeps_first_hit (idxs : list Z) :
  forall (self : PynBall B) (b : B),
    self.(ball) = Some b ->
    for_substeps idxs self
    = match first_hit idxs self with
      | Some k =>
          (set_reset_flag false (fst (collides (firstn (S k) idxs) self)), Ok true)
      | None => (fst (collides idxs self), Ok false)
      end.
Proof.
  induction idxs as [|i rest IH]; intros self b Hb; [reflexivity|].
  rewrite (first_hit_cons self i rest Hb).
  assert (Ht : target_after [i] self
               = target_collision self.(target)
                   (resolve self.(step_duration) self.(obstacles) i
                      (ball_step (Some self.(step_duration)) b))).
  { unfold target_after. cbn [collides]. unfold bind, ret.
    rewrite (collide_resolve self i Hb). reflexivity. }
  rewrite Ht. cbn [for_substeps]. unfold bind at 1.
  pose proof (collide_resolve self i Hb) as Hc. rewrite Hc.
  set (b' := resolve _ _ _ _) in *.
  unfold bind at 1, terminal at 1. cbn [set_ball ball target].
  destruct (target_collision (target self) b').
  - cbn [firstn collides]. unfold bind, ret. rewrite Hc. reflexivity.
  - rewrite (IH (set_ball (Some b') self) b' eq_refl). cbn [fst].
    destruct (first_hit rest (set_ball (Some b') self)) as [k|]; cbn [option_map].
    + change (firstn (S (S k)) (i :: rest)) with (i :: firstn (S k) rest).
      rewrite (collides_cons self i _ Hb), Hc. reflexivity.
    + rewrite (collides_cons self i _ Hb), Hc. reflexivity.
Qed.

Lemma first_hit_lt (idxs : list Z) (self : PynBall B) (k : nat) :
  first_hit idxs self = Some k -> (k < length idxs)%nat.
Proof.
  unfold first_hit. intros Hk. apply find_some in Hk. destruct Hk as [Hin _].
  apply in_seq in Hin. lia.
Qed.

Lemma length_range (n : Z) : length (range n) = Z.to_nat n.
Proof. unfold range. rewrite length_map, length_seq. reflexivity. Qed.

End LoopFacts.

(** ** The environment on a recording ball *)

Section RecordingFacts.

Context {B : Type} `{BallOps B} `{Physics B}.

Lemma resolve_calls_substep n obs i (b1 : B) :
  Forall substep_call (resolve_calls n obs i b1).
Proof.
  unfold resolve_calls. destruct (colliding obs b1) as [|c [|c' l]].
  - constructor.
  - destruct (i =? n - 1); repeat constructor.
  - repeat constructor.
Qed.

(** The policy on a recording ball is the policy on the ball, and records
    the calls of [resolve_calls]. *)
Lemma resolve_spy n obs i (b1 : B) (log : list Call) :
  resolve n obs i (b1, log)
  = (resolve n obs i b1, log ++ resolve_calls n obs i b1).
Proof.
  unfold resolve, resolve_calls.
  change (colliding obs (b1, log)) with (colliding obs b1).
  destruct (colliding obs b1) as [|c [|c' l]].
  - rewrite app_nil_r. reflexivity.
  - destruct (i =? n - 1); cbn; unfold recorded; cbn [fst snd];
      rewrite <- ?app_assoc; reflexivity.
  - reflexivity.
Qed.

Lemma loop_spy n obs tgt idxs :
  forall (b : B) (log : list Call),
    loop n obs tgt idxs (b, log)
    = ((fst (loop n obs tgt idxs b), log ++ loop_calls n obs tgt idxs b),
       snd (loop n obs tgt idxs b)).
Proof.
  induction idxs as [|i rest IH]; intros b log; cbn [loop loop_calls].
  - rewrite app_nil_r. reflexivity.
  - change (ball_step (Some n) (b, log))
      with (ball_step (Some n) b, log ++ [CStep (Some n)]).
    rewrite resolve_spy.
    set (b1 := ball_step (Some n) b). set (b' := resolve n obs i b1).
    change (target_collision tgt (b', (log ++ [CStep (Some n)]) ++ resolve_calls n obs i b1))
      with (target_collision tgt b').
    destruct (target_collision tgt b').
    + cbn [fst snd]. rewrite app_nil_r, <- app_assoc. reflexivity.
    + rewrite IH. cbn [fst snd]. rewrite <- !app_assoc. reflexivity.
Qed.

Lemma loop_calls_substep n obs tgt idxs :
  forall b : B, Forall substep_call (loop_calls n obs tgt idxs b).
Proof.
  induction idxs as [|i rest IH]; intros b; cbn [loop_calls].
  - constructor.
  - constructor; [exact I|]. apply Forall_app. split.
    + apply resolve_calls_substep.
    + destruct (target_collision _ _); [constructor | apply IH].
Qed.

(** The calls of a valid [step]: the impulse, the calls of the substep
    loop, the drag. *)
Lemma step_calls (self : PynBall (Spy B)) (action : Z) (dx dy : float)
  (b : B) (log : list Call) :
  self.(reset_flag) = true ->
  dict_get ACTION_DICT action = Some (dx, dy) ->
  self.(ball) = Some (b, log) ->
  calls (fst (step action self))
  = log ++ CAddImpulse dx dy
        :: loop_calls self.(step_duration) self.(obstacles) self.(target)
             (range self.(step_duration)) (add_impulse dx dy b)
        ++ [CAddDrag self.(drag)].
Proof.
  intros Hf Ha Hb. rewrite (step_valid _ _ Hf Ha Hb). cbv zeta.
  cbn [fst]. unfold calls. cbn [set_ball ball].
  change (add_impulse dx dy (b, log))
    with (add_impulse dx dy b, log ++ [CAddImpulse dx dy]).
  rewrite loop_spy. cbn [fst snd add_drag spy_ops recorded].
  rewrite <- !app_assoc. reflexivity.
Qed.

(** Dropping the record commutes with [step]: the environment behaves on
    a recording ball as on the ball itself. *)
Lemma step_erase (self : PynBall (Spy B)) (action : Z) :
  step action (erase self)
  = (erase (fst (step action self)), snd (step action self)).
Proof.
  destruct (reset_flag self) eqn:Hf.
  2:{ rewrite (step_not_reset self action Hf).
      apply step_not_reset. exact Hf. }
  destruct (dict_get ACTION_DICT action) as [[dx dy]|] eqn:Ha.
  2:{ rewrite (step_no_key self action Hf Ha).
      apply step_no_key; assumption. }
  destruct (ball self) as [[b log]|] eqn:Hb.
  2:{ rewrite (step_no_ball self action Hf Ha Hb).
      apply (step_no_ball (erase self) action Hf Ha).
      cbn. rewrite Hb. reflexivity. }
  rewrite (step_valid self _ Hf Ha Hb).
  assert (Hb' : ball (erase self) = Some b) by (cbn; rewrite Hb; reflexivity).
  rewrite (step_valid (erase self) _ Hf Ha Hb'). cbv zeta.
  cbn [erase step_duration obstacles target drag].
  change (add_impulse dx dy (b, log))
    with (add_impulse dx dy b, log ++ [CAddImpulse dx dy]).
  rewrite loop_spy. cbn [fst snd].
  set (r := loop _ _ _ _ _).
  change (get_center (add_drag (drag self) (fst r, ?l)))
    with (get_center (add_drag (drag self) (fst r))).
  destruct (in_bounds _); reflexivity.
Qed.

Lemma resolve_calls_no_start n obs i (b1 : B) :
  filter is_substep_start (resolve_calls n obs i b1) = [].
Proof.
  unfold resolve_calls. destruct (colliding obs b1) as [|c [|c' l]];
    [reflexivity | destruct (i =? n - 1); reflexivity | reflexivity].
Qed.

(** Every substep records exactly one [step(n)]. *)
Lemma collides_calls (idxs : list Z) :
  forall (self : PynBall (Spy B)) (b : B) (log : list Call),
    self.(ball) = Some (b, log) ->
    exists b' new,
      collides idxs self = (set_ball (Some (b', log ++ new)) self, Ok tt)
      /\ length (filter is_substep_start new) = length idxs
      /\ Forall substep_call new.
Proof.
  induction idxs as [|i rest IH]; intros self b log Hb.
  - exists b, []. rewrite app_nil_r. split; [|split; [reflexivity|constructor]].
    destruct self; cbn in Hb; subst; reflexivity.
  - rewrite (collides_cons self i rest Hb), (collide_resolve self i Hb).
    set (n := step_duration self). set (obs := obstacles self).
    change (ball_step (Some n) (b, log))
      with (ball_step (Some n) b, log ++ [CStep (Some n)]).
    rewrite (resolve_spy n obs i (ball_step (Some n) b) (log ++ [CStep (Some n)])).
    set (b1 := ball_step (Some n) b). cbn [fst].
    destruct (IH (set_ball (Some (resolve n obs i b1,
                                  (log ++ [CStep (Some n)]) ++ resolve_calls n obs i b1))
                    self) _ _ eq_refl) as (b' & new & Hrun & Hlen & Hall).
    exists b', (CStep (Some n) :: resolve_calls n obs i b1 ++ new).
    split; [|split].
    + etransitivity; [exact Hrun|]. cbn [set_ball].
      rewrite <- !app_assoc. reflexivity.
    + cbn [filter is_substep_start length]. rewrite filter_app, length_app.
      rewrite resolve_calls_no_start, Hlen. reflexivity.
    + constructor; [exact I|]. apply Forall_app. split; [|exact Hall].
      apply resolve_calls_substep.
Qed.

End RecordingFacts.

(** ** [step] and [reset] *)

Section Claims.

Context {B : Type} {ops : BallOps B} {phys : Physics B}.

(** C10: in the Active state an action outside {0,1,2,3,4} raises the
    lookup error [KeyError] and leaves the environment, its ball and its
    [reset_flag] as they were. *)
Theorem step_unknown_action (self : PynBall B) (action : Z) :
  self.(reset_flag) = true ->
  ~ 0 <= action <= 4 ->
  step action self = (self, Raise KeyError).
Proof.
  intros Hf Ha. unfold step. unfold bind at 1, get at 1. rewrite Hf.
  cbn [negb]. rewrite (dict_get_ACTION_DICT_None Ha). reflexivity.
Qed.

(** C6: the reward of a call of [step] that returns is [NOP_PENALTY] for
    the action 4 and [THRUST_PENALTY] for any other action, whatever the
    environment (so whatever collisions occur) and whatever the terminal
    flag; the magnitude of [NOP_PENALTY] (1.0) is smaller than that of
    [THRUST_PENALTY] (5.0). *)
Theorem step_reward (self self' : PynBall B) (action : Z)
  (st : State) (reward : float) (t : bool) :
  step action self = (self', Ok (st, reward, t)) ->
  (action = 4 -> reward = NOP_PENALTY)
  /\ (action <> 4 -> reward = THRUST_PENALTY)
  /\ NOP_PENALTY = (-1.0)%float /\ THRUST_PENALTY = (-5.0)%float
  /\ (abs NOP_PENALTY <? abs THRUST_PENALTY)%float = true.
Proof.
  intros Hs. destruct (step_Ok_inv _ _ Hs) as (Hf & dx & dy & b & Ha & Hb).
  rewrite (step_valid _ _ Hf Ha Hb) in Hs. cbv zeta in Hs.
  destruct (in_bounds _); [|discriminate].
  injection Hs as _ _ Hr _.
  repeat split.
  - intros ->. symmetry. exact Hr.
  - intros Hn. destruct (Z.eqb_spec action 4); [contradiction|]. symmetry. exact Hr.
Qed.

(** C5: [step] with [reset_flag] false fails with [AssertionError] and
    changes nothing; that is the case of a freshly constructed environment
    and of the environment left by a [step] that returned terminal = True;
    after a [reset] that returned, [reset_flag] is true and [step] passes
    the assertion. *)
Theorem step_requires_reset :
  (forall (self : PynBall B) action,
      self.(reset_flag) = false ->
      step action self = (self, Raise AssertionError))
  /\ (forall G (R : RandomGen G) cfg (g : G) action,
        step action (fst (init cfg g))
        = (fst (init (B := B) cfg g), Raise AssertionError))
  /\ (forall (self self' : PynBall B) action st reward action',
        step action self = (self', Ok (st, reward, true)) ->
        step action' self' = (self', Raise AssertionError))
  /\ (forall G (R : RandomGen G) starting_ball (self self' : PynBall B)
             (g g' : G) st action,
        reset starting_ball (self, g) = ((self', g'), Ok st) ->
        self'.(reset_flag) = true
        /\ snd (step action self') <> Raise AssertionError).
Proof.
  assert (Hfalse : forall (self : PynBall B) action,
             self.(reset_flag) = false ->
             step action self = (self, Raise AssertionError)).
  { intros self action Hf. unfold step. unfold bind at 1, get at 1.
    rewrite Hf. reflexivity. }
  split; [exact Hfalse|]. split; [|split].
  - intros G R cfg g action. apply Hfalse. reflexivity.
  - intros self self' action st reward action' Hs. apply Hfalse.
    destruct (step_Ok_inv _ _ Hs) as (Hf & dx & dy & b & Ha & Hb).
    rewrite (step_valid _ _ Hf Ha Hb) in Hs. cbv zeta in Hs.
    destruct (in_bounds _); [|discriminate].
    injection Hs as Hself _ _ Ht. subst self'.
    cbn [set_ball after_loop reset_flag]. rewrite Ht. reflexivity.
  - intros G R starting_ball self self' g g' st action Hr.
    assert (Hf : self'.(reset_flag) = true).
    { unfold reset in Hr. destruct starting_ball as [b|].
      - injection Hr as <- _ _. reflexivity.
      - destruct (random_choice _ g) as [g1 [start|e]]; [|discriminate].
        injection Hr as <- _ _. reflexivity. }
    split; [exact Hf|].
    unfold step. unfold bind at 1, get at 1. rewrite Hf. cbn [negb].
    destruct (dict_get ACTION_DICT action) as [[dx dy]|]; [|discriminate].
    unfold bind at 1, ball_call at 1.
    destruct (ball self') as [b|]; [|discriminate].
    match goal with
    | |- context [bind ?m ?k ?s] => destruct (bind m k s) as [s1 [v|e]] eqn:E
    end; [discriminate|].
    cbn [snd]. intros He. injection He as ->.
    revert E. unfold bind at 1, get at 1. unfold bind at 1.
    rewrite (for_substeps_loop _ (set_ball (Some (add_impulse dx dy b)) self') eq_refl).
    unfold bind at 1, get at 1. unfold bind at 1, ball_call at 1.
    cbn [after_loop ball].
    unfold check_bounds, bind, ball_read, raise, ret. cbn [set_ball ball].
    destruct (in_bounds _); discriminate.
Qed.

(** C1: a call of [step] that returns gives a state whose coordinates
    satisfy [0 < x < 1] and [0 < y < 1]; and when the centre of the ball,
    once the drag has been applied, is not strictly inside the unit
    square, [step] raises [RuntimeError] and leaves the environment as the
    drag left it, the position neither clamped nor adjusted.
    [get_center] is taken to return the position [(x, y)] of the ball. *)
Theorem step_bounds (self : PynBall B) (action : Z) :
  (forall b, get_center b = {| px := ball_x b; py := ball_y b |}) ->
  (forall self' x y xdot ydot reward t,
      step action self = (self', Ok ((x, y, xdot, ydot), reward, t)) ->
      (0.0 <? x)%float = true /\ (x <? 1.0)%float = true
      /\ (0.0 <? y)%float = true /\ (y <? 1.0)%float = true)
  /\ (forall dx dy dragged t centre,
        self.(reset_flag) = true ->
        dict_get ACTION_DICT action = Some (dx, dy) ->
        (ball_call (add_impulse dx dy) ;;
         t <- for_substeps (range self.(step_duration)) ;;
         ball_call (add_drag self.(drag)) ;;
         ret t) self = (dragged, Ok t) ->
        ball_read get_center dragged = (dragged, Ok centre) ->
        in_bounds centre = false ->
        step action self = (dragged, Raise RuntimeError)).
Proof.
  intros Hc. split.
  - intros self' x y xdot ydot reward t Hs.
    destruct (step_Ok_inv _ _ Hs) as (Hf & dx & dy & b & Ha & Hb).
    rewrite (step_valid _ _ Hf Ha Hb) in Hs. cbv zeta in Hs.
    destruct (in_bounds _) eqn:Hin; [|discriminate].
    injection Hs as _ Hx Hy _ _ _ _.
    rewrite Hc in Hin. unfold in_bounds in Hin. cbn [px py] in Hin.
    rewrite Hx, Hy in Hin.
    apply andb_prop in Hin. destruct Hin as [H1 H2].
    apply andb_prop in H1. apply andb_prop in H2.
    destruct H1, H2. repeat split; assumption.
  - intros dx dy dragged t centre Hf Ha Hpre Hrd Hin.
    destruct (ball self) as [b|] eqn:Hb.
    2:{ revert Hpre. unfold bind at 1, ball_call at 1. rewrite Hb. discriminate. }
    rewrite (step_valid _ _ Hf Ha Hb). cbv zeta.
    revert Hpre. unfold bind at 1, ball_call at 1. rewrite Hb.
    unfold bind at 1.
    rewrite (for_substeps_loop _ (set_ball (Some (add_impulse dx dy b)) self) eq_refl).
    cbn [set_ball step_duration obstacles target].
    unfold bind, ball_call, ret. cbn [after_loop ball].
    intros Hpre. injection Hpre as <- _.
    revert Hrd. unfold ball_read. cbn [set_ball ball].
    intros Hrd. injection Hrd as <-.
    cbn [after_loop set_ball drag]. rewrite Hin. reflexivity.
Qed.


(** Calls of [step] alone do not look at the generator. *)
Lemma observe_among_steps {G} {R : RandomGen G} (moves : list (Move G)) :
  existsb calls_reset moves = false ->
  forall (self : PynBall B) (g1 g2 : G),
    observe_among moves (self, g1) = observe (commands_of moves) (self, g2).
Proof.
  induction moves as [|[c|f] rest IH]; intros Hno self g1 g2.
  - reflexivity.
  - destruct c as [|action]; [discriminate Hno|].
    cbn [existsb calls_reset orb] in Hno.
    cbn [observe_among commands_of observe fst snd].
    destruct (step action self) as [self' r]. f_equal. apply IH. exact Hno.
  - cbn [existsb calls_reset orb] in Hno.
    cbn [observe_among commands_of fst snd]. apply IH. exact Hno.
Qed.

(** When no other use of the generator comes before a [reset()], the
    caller observes what it would observe alone in the process. *)
Lemma observe_among_undisturbed {G} {R : RandomGen G} (moves : list (Move G)) :
  undisturbed moves = true ->
  forall w : PynBall B * G,
    observe_among moves w = observe (commands_of moves) w.
Proof.
  induction moves as [|[c|f] rest IH]; intros Hu w.
  - reflexivity.
  - cbn [undisturbed] in Hu. destruct c as [|action];
      cbn [observe_among commands_of observe].
    + destruct (reset None w) as [w' r]. f_equal. apply IH. exact Hu.
    + destruct (step action (fst w)) as [self' r]. f_equal. apply IH. exact Hu.
  - cbn [undisturbed] in Hu. apply negb_true_iff in Hu.
    destruct w as [self g]. cbn [observe_among commands_of fst snd].
    apply observe_among_steps. exact Hu.
Qed.


End Claims.

(** ** The calls [step] makes on the ball *)

Section RecordingClaims.

Context {B : Type} {ops : BallOps B} {phys : Physics B}.

Lemma filter_substep_calls (f : Call -> bool) (l : list Call) :
  (forall c, substep_call c -> f c = false) ->
  Forall substep_call l -> filter f l = [].
Proof.
  intros Hf Hl. induction Hl as [|c l Hc _ IH]; [reflexivity|].
  cbn [filter]. rewrite (Hf c Hc). exact IH.
Qed.


(** C7: a valid call of [step] applies the drag exactly once, as its last
    call on the ball, after the calls of the substep loop, whether the
    loop ran through or stopped at the target; the loop itself only calls
    [step] and [set_velocity]. *)
Theorem drag_once_after_loop (self : PynBall (Spy B)) (action : Z)
  (dx dy : float) (b : B) (log : list Call) :
  self.(reset_flag) = true ->
  dict_get ACTION_DICT action = Some (dx, dy) ->
  self.(ball) = Some (b, log) ->
  exists in_loop t,
    (ball_call (add_impulse dx dy) ;; for_substeps (range self.(step_duration))) self
    = (after_loop self
         (fst (loop self.(step_duration) self.(obstacles) self.(target)
                 (range self.(step_duration)) (add_impulse dx dy b)),
          log ++ CAddImpulse dx dy :: in_loop, t),
       Ok t)
    /\ calls (fst (step action self))
       = log ++ CAddImpulse dx dy :: in_loop ++ [CAddDrag self.(drag)]
    /\ Forall substep_call in_loop
    /\ filter is_add_drag (CAddImpulse dx dy :: in_loop ++ [CAddDrag self.(drag)])
       = [CAddDrag self.(drag)].
Proof.
  intros Hf Ha Hb.
  set (n := step_duration self). set (obs := obstacles self).
  set (tgt := target self).
  exists (loop_calls n obs tgt (range n) (add_impulse dx dy b)),
         (snd (loop n obs tgt (range n) (add_impulse dx dy b))).
  split; [|split; [|split]].
  - unfold bind at 1, ball_call at 1. rewrite Hb.
    rewrite (for_substeps_loop _ (set_ball (Some (add_impulse dx dy (b, log))) self) eq_refl).
    cbn [set_ball step_duration obstacles target]. fold n obs tgt.
    change (add_impulse dx dy (b, log))
      with (add_impulse dx dy b, log ++ [CAddImpulse dx dy]).
    rewrite loop_spy. cbn [fst snd]. rewrite <- app_assoc. reflexivity.
  - apply (step_calls _ _ Hf Ha Hb).
  - apply loop_calls_substep.
  - cbn [filter is_add_drag]. rewrite filter_app.
    rewrite (filter_substep_calls is_add_drag).
    + reflexivity.
    + intros [] Hc; solve [reflexivity | destruct Hc].
    + apply loop_calls_substep.
Qed.

(** C8: a valid call of [step] with an action among 0..4 looks the
    impulse direction up in the fixed table
    (1,0), (0,1), (-1,0), (0,-1), (0,0), and applies it with [add_impulse]
    exactly once, as its first call on the ball, before the calls of the
    substeps. *)
Theorem impulse_once_before_loop (self : PynBall (Spy B)) (action : Z)
  (b : B) (log : list Call) :
  self.(reset_flag) = true ->
  0 <= action <= 4 ->
  self.(ball) = Some (b, log) ->
  dict_get ACTION_DICT action = Some (impulse_direction action)
  /\ exists in_loop,
      calls (fst (step action self))
      = log ++ CAddImpulse (fst (impulse_direction action))
                 (snd (impulse_direction action))
               :: in_loop ++ [CAddDrag self.(drag)]
      /\ Forall substep_call in_loop
      /\ filter is_add_impulse
           (CAddImpulse (fst (impulse_direction action))
              (snd (impulse_direction action))
              :: in_loop ++ [CAddDrag self.(drag)])
         = [CAddImpulse (fst (impulse_direction action))
              (snd (impulse_direction action))].
Proof.
  intros Hf Ha Hb. pose proof (dict_get_ACTION_DICT Ha) as Hd.
  split; [exact Hd|].
  destruct (impulse_direction action) as [dx dy]. cbn [fst snd].
  exists (loop_calls self.(step_duration) self.(obstacles) self.(target)
            (range self.(step_duration)) (add_impulse dx dy b)).
  split; [|split].
  - apply (step_calls _ _ Hf Hd Hb).
  - apply loop_calls_substep.
  - cbn [filter is_add_impulse]. rewrite filter_app.
    rewrite (filter_substep_calls is_add_impulse).
    + reflexivity.
    + intros [] Hc; solve [reflexivity | destruct Hc].
    + apply loop_calls_substep.
Qed.

(** C4: in a valid call of [step], if the target test is true for the
    first time in the substep of index [k], that substep is the last one
    run (the ball records [k + 1] calls of [step(n)]), [reset_flag] is
    cleared and the terminal flag of the call is True; if the target test
    is false in every substep, all [step_duration] substeps run,
    [reset_flag] stays as it was and the terminal flag is False. *)
Theorem target_stops_loop (self : PynBall (Spy B)) (action : Z)
  (dx dy : float) (b : B) (log : list Call) :
  self.(reset_flag) = true ->
  dict_get ACTION_DICT action = Some (dx, dy) ->
  self.(ball) = Some (b, log) ->
  (forall k,
      first_hit (range self.(step_duration))
        (set_ball (Some (add_impulse dx dy (b, log))) self) = Some k ->
      (k < Z.to_nat self.(step_duration))%nat
      /\ reset_flag (fst (step action self)) = false
      /\ (exists new,
            calls (fst (step action self)) = log ++ new
            /\ length (filter is_substep_start new) = S k)
      /\ (snd (step action self) = Raise RuntimeError
          \/ exists st reward, snd (step action self) = Ok (st, reward, true)))
  /\ (first_hit (range self.(step_duration))
        (set_ball (Some (add_impulse dx dy (b, log))) self) = None ->
      reset_flag (fst (step action self)) = true
      /\ (exists new,
            calls (fst (step action self)) = log ++ new
            /\ length (filter is_substep_start new) = Z.to_nat self.(step_duration))
      /\ (snd (step action self) = Raise RuntimeError
          \/ exists st reward, snd (step action self) = Ok (st, reward, false))).
Proof.
  intros Hf Ha Hb.
  set (n := step_duration self).
  set (s0 := set_ball (Some (add_impulse dx dy (b, log))) self).
  rewrite (step_valid self action Hf Ha Hb). cbv zeta. fold n.
  match goal with |- context [after_loop self ?x] => set (r := x) end.
  assert (E : (after_loop s0 r, Ok (snd r))
              = match first_hit (range n) s0 with
                | Some k =>
                    (set_reset_flag false
                       (fst (collides (firstn (S k) (range n)) s0)), Ok true)
                | None => (fst (collides (range n) s0), Ok false)
                end)
    by exact (eq_trans (eq_sym (for_substeps_loop (range n) s0 eq_refl))
                (for_substeps_first_hit (range n) s0 eq_refl)).
  clearbody r. cbn [fst snd].
  assert (Hcalls : forall idxs,
             exists b' new,
               collides idxs s0
               = (set_ball (Some (b', (log ++ [CAddImpulse dx dy]) ++ new)) s0, Ok tt)
               /\ length (filter is_substep_start new) = length idxs).
  { intros idxs.
    destruct (collides_calls idxs s0 (b := add_impulse dx dy b)
                (log := log ++ [CAddImpulse dx dy]) eq_refl)
      as (b' & new & Hrun & Hlen & _).
    exists b', new. split; assumption. }
  split.
  - intros k Hk. rewrite Hk in E.
    pose proof (f_equal fst E) as Eenv. pose proof (f_equal snd E) as Et.
    cbn [fst snd] in Eenv, Et. injection Et as Et.
    pose proof (first_hit_lt _ _ Hk) as Hlt. rewrite length_range in Hlt.
    destruct (Hcalls (firstn (S k) (range n))) as (b' & new & Hrun & Hlen).
    assert (Eball : fst r = (b', (log ++ [CAddImpulse dx dy]) ++ new)).
    { assert (Some (fst r)
              = Some (b', (log ++ [CAddImpulse dx dy]) ++ new)) as Es
        by exact (eq_trans (f_equal (@ball (Spy B)) Eenv)
                    (f_equal (fun p => ball (set_reset_flag false (fst p))) Hrun)).
      injection Es as Es. exact Es. }
    rewrite length_firstn, length_range in Hlen.
    split; [exact Hlt|]. split; [|split].
    + cbn [set_ball after_loop reset_flag]. rewrite Et. reflexivity.
    + exists (CAddImpulse dx dy :: new ++ [CAddDrag (drag self)]).
      unfold calls. cbn [set_ball ball]. rewrite Eball.
      cbn [add_drag spy_ops recorded fst snd]. split.
      * rewrite <- !app_assoc. reflexivity.
      * cbn [filter is_substep_start]. rewrite filter_app, length_app.
        cbn [filter is_substep_start length]. lia.
    + destruct (in_bounds _); [right | left; reflexivity].
      rewrite Et. eexists. eexists. reflexivity.
  - intros Hk. rewrite Hk in E.
    pose proof (f_equal fst E) as Eenv. pose proof (f_equal snd E) as Et.
    cbn [fst snd] in Eenv, Et. injection Et as Et.
    destruct (Hcalls (range n)) as (b' & new & Hrun & Hlen).
    assert (Eball : fst r = (b', (log ++ [CAddImpulse dx dy]) ++ new)).
    { assert (Some (fst r)
              = Some (b', (log ++ [CAddImpulse dx dy]) ++ new)) as Es
        by exact (eq_trans (f_equal (@ball (Spy B)) Eenv)
                    (f_equal (fun p => ball (fst p)) Hrun)).
      injection Es as Es. exact Es. }
    rewrite length_range in Hlen.
    split; [|split].
    + cbn [set_ball after_loop reset_flag]. rewrite Et. exact Hf.
    + exists (CAddImpulse dx dy :: new ++ [CAddDrag (drag self)]).
      unfold calls. cbn [set_ball ball]. rewrite Eball.
      cbn [add_drag spy_ops recorded fst snd]. split.
      * rewrite <- !app_assoc. reflexivity.
      * cbn [filter is_substep_start]. rewrite filter_app, length_app.
        cbn [filter is_substep_start length]. lia.
    + destruct (in_bounds _); [right | left; reflexivity].
      rewrite Et. eexists. eexists. reflexivity.
Qed.

End RecordingClaims.

(** ** The scenes *)

Import Scene.

(** Runs [step] on a scene and names its outcome [E]. *)
Ltac run_step action scene self' st reward t E :=
  destruct (step action scene) as [self' [[[st reward] t]|?e]] eqn:E;
  [| exfalso; vm_compute in E; discriminate E ].

Lemma step_unknown_action_witness :
  reset_flag at_rest = true
  /\ ~ 0 <= 7 <= 4
  /\ step 7 at_rest = (at_rest, Raise KeyError).
Proof.
  split; [reflexivity|]. split; [lia|].
  apply step_unknown_action; [reflexivity | lia].
Defined.

Lemma step_reward_witness :
  exists self' st reward t,
    step 0 at_rest = (self', Ok (st, reward, t))
    /\ 0 <> 4 /\ reward = THRUST_PENALTY.
Proof.
  run_step 0 at_rest self' st reward t E.
  exists self', st, reward, t. split; [reflexivity|]. split; [lia|].
  apply (step_reward _ _ E). lia.
Defined.

Lemma step_requires_reset_witness :
  step 0 (fst (init cfg 7)) = (fst (init (B := Model.Ball) cfg 7), Raise AssertionError)
  /\ (exists self' st reward,
        step 4 scoring = (self', Ok (st, reward, true))
        /\ step 4 self' = (self', Raise AssertionError))
  /\ (exists self' g' st,
        reset None (init (B := Model.Ball) cfg 7) = ((self', g'), Ok st)
        /\ reset_flag self' = true
        /\ snd (step 0 self') <> Raise AssertionError).
Proof.
  destruct (step_requires_reset (B := Model.Ball)) as (_ & P2 & P3 & P4).
  split; [apply P2|]. split.
  - run_step 4 scoring self' st reward t E.
    assert (Ht : t = true) by (vm_compute in E; congruence). subst t.
    exists self', st, reward. split; [reflexivity|]. exact (P3 _ _ _ _ _ 4 E).
  - destruct (reset None (init (B := Model.Ball) cfg 7)) as [[self' g'] [st|e]] eqn:E;
      [| exfalso; vm_compute in E; discriminate E ].
    exists self', g', st. split; [reflexivity|]. exact (P4 _ _ _ _ _ _ _ _ 0 E).
Defined.

Lemma model_center (b : Model.Ball) :
  get_center b = {| px := ball_x b; py := ball_y b |}.
Proof. reflexivity. Qed.

Lemma step_bounds_witness :
  (exists self' x y xdot ydot reward t,
      step 0 at_rest = (self', Ok ((x, y, xdot, ydot), reward, t))
      /\ (0.0 <? x)%float = true /\ (x <? 1.0)%float = true
      /\ (0.0 <? y)%float = true /\ (y <? 1.0)%float = true)
  /\ (exists dragged, step 0 leaving = (dragged, Raise RuntimeError)).
Proof.
  split.
  - run_step 0 at_rest self' st reward t E. destruct st as [[[x y] xdot] ydot].
    exists self', x, y, xdot, ydot, reward, t. split; [reflexivity|].
    exact (proj1 (step_bounds at_rest 0 model_center) _ _ _ _ _ _ _ E).
  - eexists.
    eapply (proj2 (step_bounds leaving 0 model_center));
      [ reflexivity | reflexivity | vm_compute; reflexivity
      | vm_compute; reflexivity | vm_compute; reflexivity ].
Defined.



Lemma target_stops_loop_witness :
  (first_hit (range 20)
     (set_ball (Some (add_impulse 0.0 0.0 (ball_at 0.8 0.9 0.5 0.0, [])%float))
        (record_calls scoring)) = Some 3%nat
   /\ reset_flag (fst (step 4 (record_calls scoring))) = false
   /\ (exists new,
         calls (fst (step 4 (record_calls scoring))) = [] ++ new
         /\ length (filter is_substep_start new) = 4%nat)
   /\ (snd (step 4 (record_calls scoring)) = Raise RuntimeError
       \/ exists st reward,
           snd (step 4 (record_calls scoring)) = Ok (st, reward, true)))
  /\ (first_hit (range 20)
        (set_ball (Some (add_impulse 1.0 0.0 (ball_at 0.2 0.2 0.0 0.0, [])%float))
           (record_calls at_rest)) = None
      /\ reset_flag (fst (step 0 (record_calls at_rest))) = true
      /\ (exists new,
            calls (fst (step 0 (record_calls at_rest))) = [] ++ new
            /\ length (filter is_substep_start new) = 20%nat)
      /\ (snd (step 0 (record_calls at_rest)) = Raise RuntimeError
          \/ exists st reward,
              snd (step 0 (record_calls at_rest)) = Ok (st, reward, false))).
Proof.
  split.
  - assert (Hk : first_hit (range 20)
                   (set_ball (Some (add_impulse 0.0 0.0 (ball_at 0.8 0.9 0.5 0.0, [])%float))
                      (record_calls scoring)) = Some 3%nat)
      by (vm_compute; reflexivity).
    split; [exact Hk|].
    exact (proj2 (proj1 (target_stops_loop (record_calls scoring) 4
                           (b := (ball_at 0.8 0.9 0.5 0.0)%float) (log := [])
                           eq_refl eq_refl eq_refl) 3%nat Hk)).
  - assert (Hk : first_hit (range 20)
                   (set_ball (Some (add_impulse 1.0 0.0 (ball_at 0.2 0.2 0.0 0.0, [])%float))
                      (record_calls at_rest)) = None)
      by (vm_compute; reflexivity).
    split; [exact Hk|].
    exact (proj2 (target_stops_loop (record_calls at_rest) 0
                    (b := (ball_at 0.2 0.2 0.0 0.0)%float) (log := [])
                    eq_refl eq_refl eq_refl) Hk).
Defined.

Lemma drag_once_after_loop_witness :
  exists in_loop,
    calls (fst (step 4 (record_calls scoring)))
    = [] ++ CAddImpulse 0.0 0.0 :: in_loop ++ [CAddDrag 0.0]
    /\ Forall substep_call in_loop.
Proof.
  destruct (drag_once_after_loop (record_calls scoring) 4
              (b := (ball_at 0.8 0.9 0.5 0.0)%float) (log := [])
              eq_refl eq_refl eq_refl)
    as (in_loop & t & _ & Hcalls & Hall & _).
  exists in_loop. split; [exact Hcalls | exact Hall].
Defined.

Lemma impulse_once_before_loop_witness :
  0 <= 0 <= 4
  /\ dict_get ACTION_DICT 0 = Some (1.0, 0.0)%float
  /\ exists in_loop,
      calls (fst (step 0 (record_calls at_rest)))
      = [] ++ CAddImpulse 1.0 0.0 :: in_loop ++ [CAddDrag 0.0]
      /\ Forall substep_call in_loop.
Proof.
  split; [lia|].
  destruct (impulse_once_before_loop (record_calls at_rest) (action := 0)
              (b := (ball_at 0.2 0.2 0.0 0.0)%float) (log := [])
              eq_refl ltac:(lia) eq_refl)
    as (Hd & in_loop & Hcalls & Hall & _).
  split; [exact Hd|]. exists in_loop. split; [exact Hcalls | exact Hall].
Defined.

(** * Further properties of the environment *)

Section Outcomes.

Context {B : Type} {ops : BallOps B} {phys : Physics B}.

(** The four ways a call of [step] can go: the three early exits, which
    leave the environment alone, and the call that runs the loop. *)
Lemma step_outcome (self : PynBall B) (action : Z) :
  step action self = (self, Raise AssertionError)
  \/ step action self = (self, Raise KeyError)
  \/ step action self = (self, Raise AttributeError)
  \/ exists dx dy b,
      self.(reset_flag) = true
      /\ dict_get ACTION_DICT action = Some (dx, dy)
      /\ self.(ball) = Some b.
Proof.
  destruct (reset_flag self) eqn:Hf.
  2:{ left. apply step_not_reset. exact Hf. }
  destruct (dict_get ACTION_DICT action) as [[dx dy]|] eqn:Ha.
  2:{ right. left. apply step_no_key; assumption. }
  destruct (ball self) as [b|] eqn:Hb.
  2:{ right. right. left. apply (step_no_ball self action Hf Ha Hb). }
  right. right. right. exists dx, dy, b. repeat split; assumption.
Qed.

Lemma same_world_refl (self : PynBall B) : same_world self self.
Proof. repeat split. Qed.

Lemma last_default {A} (l : list A) (d d' : A) : l <> [] -> last l d = last l d'.
Proof.
  induction l as [|a l IH]; [contradiction|]. intros _.
  destruct l as [|a' l']; [reflexivity|].
  change (last (a :: a' :: l') d) with (last (a' :: l') d).
  change (last (a :: a' :: l') d') with (last (a' :: l') d').
  apply IH. discriminate.
Qed.

Lemma range_nonpos (n : Z) : n <= 0 -> range n = [].
Proof.
  intros Hn. unfold range. replace (Z.to_nat n) with 0%nat by lia. reflexivity.
Qed.

Lemma range_pos (n : Z) : 1 <= n -> range n <> [].
Proof.
  intros Hn. unfold range.
  destruct (Z.to_nat n) as [|k] eqn:E; [lia|]. discriminate.
Qed.

(** After a loop that ran at least one substep, the ball is on the target
    exactly when the loop says so. *)
Lemma loop_target n obs tgt (idxs : list Z) :
  forall b : B,
    idxs <> [] ->
    target_collision tgt (fst (loop n obs tgt idxs b))
    = snd (loop n obs tgt idxs b).
Proof.
  induction idxs as [|i rest IH]; intros b Hne; [contradiction|].
  cbn [loop]. set (b' := resolve n obs i (ball_step (Some n) b)).
  destruct (target_collision tgt b') eqn:Ht.
  - exact Ht.
  - destruct rest as [|j rest'].
    + exact Ht.
    + apply IH. discriminate.
Qed.

(** X1: no method of the environment changes what the constructor set up:
    the configuration, [step_duration], [drag], the obstacles and the
    target are the same after [step], [reset], [terminal] and
    [check_bounds], whatever their outcome. *)
Theorem methods_keep_world (self : PynBall B) :
  (forall action, same_world self (fst (step action self)))
  /\ (forall G (R : RandomGen G) starting_ball (g : G),
        same_world self (fst (fst (reset starting_ball (self, g)))))
  /\ same_world self (fst (terminal self))
  /\ same_world self (fst (check_bounds self)).
Proof.
  split; [|split; [|split]].
  - intros action.
    destruct (step_outcome self action)
      as [E|[E|[E|(dx & dy & b & Hf & Ha & Hb)]]];
      try (rewrite E; apply same_world_refl).
    rewrite (step_valid _ _ Hf Ha Hb). repeat split.
  - intros G R starting_ball g. unfold reset.
    destruct starting_ball as [b|]; [repeat split|].
    destruct (random_choice _ g) as [g' [start|e]]; repeat split.
  - unfold terminal. destruct (ball self); apply same_world_refl.
  - unfold check_bounds, bind, ball_read, raise, ret.
    destruct (ball self) as [b|]; [|apply same_world_refl].
    destruct (negb _); apply same_world_refl.
Qed.

(** X2: with [step_duration <= 0] a valid call of [step] runs no substep
    at all: the ball gets the impulse and the drag and is not moved, the
    target is not tested, so the terminal flag is False and [reset_flag]
    stays set even with the ball on the target. *)
Theorem step_without_substeps (self : PynBall B) (action : Z)
  (dx dy : float) (b : B) :
  self.(step_duration) <= 0 ->
  self.(reset_flag) = true ->
  dict_get ACTION_DICT action = Some (dx, dy) ->
  self.(ball) = Some b ->
  step action self
  = (set_ball (Some (add_drag self.(drag) (add_impulse dx dy b))) self,
     if in_bounds (get_center (add_drag self.(drag) (add_impulse dx dy b)))
     then Ok (ball_state (add_drag self.(drag) (add_impulse dx dy b)),
              (if action =? 4 then NOP_PENALTY else THRUST_PENALTY), false)
     else Raise RuntimeError).
Proof.
  intros Hn Hf Ha Hb. rewrite (step_valid _ _ Hf Ha Hb).
  rewrite (range_nonpos Hn). reflexivity.
Qed.

(** X3: after a call of [step] that returns, [check_bounds] passes; after
    a call that raised [RuntimeError], the ball is still out of bounds
    and [check_bounds] raises again.  In both cases [check_bounds] leaves
    the environment as it is. *)
Theorem check_bounds_after_step (self self' : PynBall B) (action : Z)
  (r : result (State * float * bool)) :
  step action self = (self', r) ->
  (forall v, r = Ok v -> check_bounds self' = (self', Ok tt))
  /\ (r = Raise RuntimeError -> check_bounds self' = (self', Raise RuntimeError)).
Proof.
  intros Hs.
  destruct (step_outcome self action)
    as [E|[E|[E|(dx & dy & b & Hf & Ha & Hb)]]];
    try (rewrite E in Hs; injection Hs as <- <-; split;
         [intros v Hv; discriminate Hv | intros Hr; discriminate Hr]).
  rewrite (step_valid _ _ Hf Ha Hb) in Hs. cbv zeta in Hs.
  destruct (in_bounds _) eqn:Hin; injection Hs as <- <-.
  - split; [|discriminate]. intros v _.
    unfold check_bounds, bind, ball_read, raise, ret. cbn [set_ball ball].
    rewrite Hin. reflexivity.
  - split; [discriminate|]. intros _.
    unfold check_bounds, bind, ball_read, raise, ret. cbn [set_ball ball].
    rewrite Hin. reflexivity.
Qed.

(** X4: a call of [step] that returns leaves [reset_flag] at the negation
    of the terminal flag it returns, with the ball in place; so after
    terminal = False the next call with an action among 0..4 passes the
    assertion and can only return or raise [RuntimeError]. *)
Theorem step_continues (self self' : PynBall B) (action : Z)
  (st : State) (reward : float) (t : bool) :
  step action self = (self', Ok (st, reward, t)) ->
  self'.(reset_flag) = negb t
  /\ self'.(ball) <> None
  /\ (t = false ->
      forall action', 0 <= action' <= 4 ->
        snd (step action' self') = Raise RuntimeError
        \/ exists v, snd (step action' self') = Ok v).
Proof.
  intros Hs. destruct (step_Ok_inv _ _ Hs) as (Hf & dx & dy & b & Ha & Hb).
  rewrite (step_valid _ _ Hf Ha Hb) in Hs. cbv zeta in Hs.
  destruct (in_bounds _); [|discriminate].
  injection Hs as <- _ _ Ht.
  assert (Hflag : reset_flag
                    (set_ball
                       (Some (add_drag (drag self)
                                (fst (loop (step_duration self) (obstacles self)
                                        (target self) (range (step_duration self))
                                        (add_impulse dx dy b)))))
                       (after_loop self
                          (loop (step_duration self) (obstacles self)
                             (target self) (range (step_duration self))
                             (add_impulse dx dy b)))) = negb t).
  { cbn [set_ball after_loop reset_flag]. rewrite Ht.
    destruct t; [reflexivity | exact Hf]. }
  split; [exact Hflag|]. split; [discriminate|].
  intros -> action' Ha'. cbn [negb] in Hflag.
  pose proof (dict_get_ACTION_DICT Ha') as Hd.
  destruct (impulse_direction action') as [dx' dy'].
  rewrite (step_valid _ _ Hflag Hd eq_refl).
  cbv zeta. cbn [snd]. destruct (in_bounds _); [right | left; reflexivity].
  eexists. reflexivity.
Qed.

(** X5: when the drag does not move the ball off or onto the target and
    at least one substep runs, the terminal flag a call of [step] returns
    is what [terminal()] answers right after it. *)
Theorem terminal_agrees (self self' : PynBall B) (action : Z)
  (st : State) (reward : float) (t : bool) :
  (forall d b, target_collision self.(target) (add_drag d b)
               = target_collision self.(target) b) ->
  1 <= self.(step_duration) ->
  step action self = (self', Ok (st, reward, t)) ->
  terminal self' = (self', Ok t).
Proof.
  intros Hdrag Hn Hs.
  destruct (step_Ok_inv _ _ Hs) as (Hf & dx & dy & b & Ha & Hb).
  rewrite (step_valid _ _ Hf Ha Hb) in Hs. cbv zeta in Hs.
  destruct (in_bounds _); [|discriminate].
  injection Hs as <- _ _ Ht.
  unfold terminal. cbn [set_ball after_loop ball target].
  rewrite Hdrag, (loop_target _ _ _ _ (range_pos Hn)), Ht. reflexivity.
Qed.

(** X6: once [reset_flag] is false, every further call of [step] raises
    [AssertionError] and changes nothing, however many are made: the
    environment and the generator are afterwards what they were, and a
    finished episode stays finished until [reset]. *)
Theorem finished_stays_finished {G} {R : RandomGen G} (self : PynBall B)
  (g : G) (actions : list Z) :
  self.(reset_flag) = false ->
  observe (map Step actions) (self, g)
  = map (fun _ => Stepped (Raise AssertionError)) actions
  /\ world_after (map Step actions) (self, g) = (self, g).
Proof.
  intros Hf. induction actions as [|a rest [IHo IHw]]; [split; reflexivity|].
  cbn [map observe world_after fst snd]. rewrite (step_not_reset self a Hf).
  cbn [fst]. split; [f_equal; exact IHo | exact IHw].
Qed.

Lemma reachable_ready {G} {R : RandomGen G} (w : PynBall B * G) :
  reachable w -> (fst w).(reset_flag) = true -> (fst w).(ball) <> None.
Proof.
  intros Hw. induction Hw as
    [cfg g | sb [self g] Hw IH | action self g Hw IH | self g Hw IH
     | self g Hw IH | self g g' Hw IH | self g b b' Hw IH Hb]; cbn [fst] in *.
  - discriminate.
  - unfold reset. destruct sb as [b|]; [discriminate|].
    destruct (random_choice _ g) as [g' [start|e]]; [discriminate|exact IH].
  - destruct (step_outcome self action)
      as [E|[E|[E|(dx & dy & b & Hf & Ha & Hb)]]];
      try (rewrite E; exact IH).
    rewrite (step_valid _ _ Hf Ha Hb). discriminate.
  - replace (fst (terminal self)) with self; [exact IH|].
    unfold terminal. destruct (ball self); reflexivity.
  - replace (fst (check_bounds self)) with self; [exact IH|].
    unfold check_bounds, bind, ball_read, raise, ret.
    destruct (ball self) as [b|]; [|reflexivity].
    destruct (negb _); reflexivity.
  - exact IH.
  - discriminate.
Qed.

(** X7: in an environment reached through the constructor and the
    methods, [reset_flag] is only set when there is a ball, so [step]
    either returns or raises one of [AssertionError], [KeyError] and
    [RuntimeError]; the ball is never missing when [step] needs it. *)
Theorem reachable_step_outcomes {G} {R : RandomGen G} (self : PynBall B)
  (g : G) (action : Z) :
  reachable (self, g) ->
  (exists v, snd (step action self) = Ok v)
  \/ snd (step action self) = Raise AssertionError
  \/ snd (step action self) = Raise KeyError
  \/ snd (step action self) = Raise RuntimeError.
Proof.
  intros Hw. pose proof (reachable_ready Hw) as Hready. cbn [fst] in Hready.
  destruct (reset_flag self) eqn:Hf.
  2:{ right. left. rewrite (step_not_reset self action Hf). reflexivity. }
  destruct (dict_get ACTION_DICT action) as [[dx dy]|] eqn:Ha.
  2:{ right. right. left. rewrite (step_no_key self action Hf Ha). reflexivity. }
  destruct (ball self) as [b|] eqn:Hb; [|exfalso; apply Hready; reflexivity].
  rewrite (step_valid _ _ Hf Ha Hb). cbv zeta. cbn [snd].
  destruct (in_bounds _); [left; eexists; reflexivity | right; right; right; reflexivity].
Qed.

(** X8: a [reset()] that returns put a fresh ball on one of the start
    locations of the configuration, with the configured radius, returned
    its state and set [reset_flag]; the generator made one draw. *)
Theorem reset_picks_start {G} {R : RandomGen G} (self self' : PynBall B)
  (g g' : G) (st : State) :
  reset None (self, g) = ((self', g'), Ok st) ->
  exists start,
    In start self.(config).(cfg_ball_starts)
    /\ self'.(ball)
       = Some (new_ball (mk_point start) self.(config).(cfg_ball_radius))
    /\ st = ball_state (new_ball (mk_point start) self.(config).(cfg_ball_radius))
    /\ self'.(reset_flag) = true
    /\ g' = snd (randbelow (length self.(config).(cfg_ball_starts)) g).
Proof.
  unfold reset, random_choice.
  destruct (cfg_ball_starts (config self)) as [|s0 starts] eqn:Hstarts;
    [discriminate|].
  destruct (randbelow (length (s0 :: starts)) g) as [k g1].
  destruct (nth_error (s0 :: starts) k) as [start|] eqn:Hk; [|discriminate].
  intros Hr. injection Hr as <- <- <-.
  exists start. split; [exact (nth_error_In _ _ Hk)|].
  repeat split.
Qed.

(** X9: [reset()] on a configuration without start locations raises
    [IndexError] and changes neither the environment (so [reset_flag]
    stays as it was) nor the generator; with at least one start location,
    and a generator whose draws below [n] are below [n], it returns. *)
Theorem reset_without_start {G} {R : RandomGen G} (self : PynBall B) (g : G) :
  (self.(config).(cfg_ball_starts) = [] ->
   reset None (self, g) = ((self, g), Raise IndexError))
  /\ ((forall n g0, (0 < n)%nat -> (fst (randbelow n g0) < n)%nat) ->
      self.(config).(cfg_ball_starts) <> [] ->
      exists st, snd (reset None (self, g)) = Ok st).
Proof.
  split.
  - intros Hs. unfold reset, random_choice. rewrite Hs. reflexivity.
  - intros Hlaw Hne. unfold reset, random_choice.
    destruct (cfg_ball_starts (config self)) as [|s0 starts]; [contradiction|].
    pose proof (Hlaw (length (s0 :: starts)) g ltac:(cbn; lia)) as Hk.
    destruct (randbelow (length (s0 :: starts)) g) as [k g1]. cbn [fst] in Hk.
    destruct (nth_error (s0 :: starts) k) as [start|] eqn:E.
    + eexists. reflexivity.
    + apply nth_error_None in E. lia.
Qed.

(** X10: [reset] does not look at the ball or the flag the environment
    had: on two environments of the same construction it gives the same
    result and the same generator state, and when it returns, the same
    environment. *)
Theorem reset_forgets {G} {R : RandomGen G} (s1 s2 : PynBall B)
  (starting_ball : option B) (g : G) :
  same_world s1 s2 ->
  snd (reset starting_ball (s1, g)) = snd (reset starting_ball (s2, g))
  /\ snd (fst (reset starting_ball (s1, g)))
     = snd (fst (reset starting_ball (s2, g)))
  /\ (forall st,
        snd (reset starting_ball (s1, g)) = Ok st ->
        fst (fst (reset starting_ball (s1, g)))
        = fst (fst (reset starting_ball (s2, g)))).
Proof.
  destruct s1 as [c1 n1 d1 o1 t1 f1 b1], s2 as [c2 n2 d2 o2 t2 f2 b2].
  unfold same_world. cbn [config step_duration drag obstacles target].
  intros (-> & -> & -> & -> & ->). unfold reset. cbn [config].
  destruct starting_ball as [b|]; [repeat split|].
  destruct (random_choice _ g) as [g' [start|e]]; cbn [fst snd].
  - repeat split.
  - split; [reflexivity|]. split; [reflexivity|]. intros st Hst. discriminate Hst.
Qed.

Lemma colliding_perm (obs obs' : list PolygonObstacle) (b : B) :
  Permutation obs obs' -> Permutation (colliding obs b) (colliding obs' b).
Proof.
  unfold colliding. intros Hp.
  induction Hp as [|o l l' Hp IH|o o' l|l l' l'' Hp1 IH1 Hp2 IH2]; cbn [filter].
  - constructor.
  - destruct (obstacle_collision o b); [constructor|]; exact IH.
  - destruct (obstacle_collision o b), (obstacle_collision o' b);
      try apply Permutation_refl. apply perm_swap.
  - exact (Permutation_trans IH1 IH2).
Qed.

Lemma resolve_perm n (obs obs' : list PolygonObstacle) i (b1 : B) :
  Permutation obs obs' -> resolve n obs i b1 = resolve n obs' i b1.
Proof.
  intros Hp. apply (colliding_perm b1) in Hp. unfold resolve.
  destruct (colliding obs b1) as [|c [|c' l]].
  - apply Permutation_nil in Hp. rewrite Hp. reflexivity.
  - apply Permutation_length_1_inv in Hp. rewrite Hp. reflexivity.
  - pose proof (Permutation_length Hp) as Hlen.
    destruct (colliding obs' b1) as [|d [|d' l']]; cbn [length] in Hlen;
      [discriminate | discriminate | reflexivity].
Qed.

Lemma loop_perm n (obs obs' : list PolygonObstacle) tgt idxs :
  Permutation obs obs' ->
  forall b : B, loop n obs tgt idxs b = loop n obs' tgt idxs b.
Proof.
  intros Hp. induction idxs as [|i rest IH]; intros b; [reflexivity|].
  cbn [loop]. rewrite (resolve_perm n i _ Hp).
  destruct (target_collision tgt _); [reflexivity | apply IH].
Qed.

(** X12: the order in which the configuration lists the obstacles does not
    matter to [step]: with the obstacles permuted it gives the same
    result and leaves the same ball and the same [reset_flag]. *)
Theorem step_obstacle_order (self : PynBall B) (obs' : list PolygonObstacle)
  (action : Z) :
  Permutation self.(obstacles) obs' ->
  snd (step action (with_obstacles obs' self)) = snd (step action self)
  /\ ball (fst (step action (with_obstacles obs' self)))
     = ball (fst (step action self))
  /\ reset_flag (fst (step action (with_obstacles obs' self)))
     = reset_flag (fst (step action self)).
Proof.
  intros Hp.
  destruct (reset_flag self) eqn:Hf.
  2:{ rewrite (step_not_reset self action Hf).
      rewrite (step_not_reset (with_obstacles obs' self) action Hf).
      repeat split. }
  destruct (dict_get ACTION_DICT action) as [[dx dy]|] eqn:Ha.
  2:{ rewrite (step_no_key self action Hf Ha).
      rewrite (step_no_key (with_obstacles obs' self) action Hf Ha).
      repeat split. }
  destruct (ball self) as [b|] eqn:Hb.
  2:{ rewrite (step_no_ball self action Hf Ha Hb).
      rewrite (step_no_ball (with_obstacles obs' self) action Hf Ha Hb).
      repeat split. }
  rewrite (step_valid self _ Hf Ha Hb).
  rewrite (step_valid (with_obstacles obs' self) _ Hf Ha Hb).
  cbv zeta. cbn [with_obstacles step_duration obstacles target drag].
  rewrite <- (loop_perm _ _ _ Hp).
  destruct (in_bounds _); repeat split.
Qed.

(** X13: the state tuple that [reset] and [step] return is the state of
    the ball the environment holds afterwards. *)
Theorem returned_state_is_ball :
  (forall G (R : RandomGen G) starting_ball (self self' : PynBall B)
          (g g' : G) st,
      reset starting_ball (self, g) = ((self', g'), Ok st) ->
      exists b, self'.(ball) = Some b /\ st = ball_state b)
  /\ (forall (self self' : PynBall B) action st reward t,
        step action self = (self', Ok (st, reward, t)) ->
        exists b, self'.(ball) = Some b /\ st = ball_state b).
Proof.
  split.
  - intros G R starting_ball self self' g g' st. unfold reset.
    destruct starting_ball as [b|].
    + intros Hr. injection Hr as <- _ <-. eexists. split; reflexivity.
    + destruct (random_choice _ g) as [g1 [start|e]]; [|discriminate].
      intros Hr. injection Hr as <- _ <-. eexists. split; reflexivity.
  - intros self self' action st reward t Hs.
    destruct (step_Ok_inv _ _ Hs) as (Hf & dx & dy & b & Ha & Hb).
    rewrite (step_valid _ _ Hf Ha Hb) in Hs. cbv zeta in Hs.
    destruct (in_bounds _); [|discriminate].
    injection Hs as <- <- _ _. eexists. split; reflexivity.
Qed.

End Outcomes.

Section Failures.

Context {B : Type} {ops : BallOps B} {phys : Physics B}.

(** X11: a call of [step] that raises, raises [AssertionError],
    [KeyError], [AttributeError] or [RuntimeError].  Only [RuntimeError]
    comes after the ball was touched: the other three leave the
    environment exactly as it was, while a call that fails the bounds
    check has applied the impulse, its substeps and the drag, and nothing
    is rolled back. *)
Theorem step_failure (self self' : PynBall (Spy B)) (action : Z) (e : exn) :
  step action self = (self', Raise e) ->
  (e = AssertionError \/ e = KeyError \/ e = AttributeError \/ e = RuntimeError)
  /\ (e <> RuntimeError -> self' = self)
  /\ (e = RuntimeError ->
      exists b log dx dy in_loop,
        self.(ball) = Some (b, log)
        /\ calls self'
           = log ++ CAddImpulse dx dy :: in_loop ++ [CAddDrag self.(drag)]).
Proof.
  intros Hs.
  destruct (step_outcome self action)
    as [E|[E|[E|(dx & dy & [b log] & Hf & Ha & Hb)]]].
  - rewrite E in Hs. injection Hs as <- <-.
    split; [auto|]. split; [reflexivity | discriminate].
  - rewrite E in Hs. injection Hs as <- <-.
    split; [auto|]. split; [reflexivity | discriminate].
  - rewrite E in Hs. injection Hs as <- <-.
    split; [auto|]. split; [reflexivity | discriminate].
  - pose proof (step_calls self action Hf Ha Hb) as Hc.
    assert (Hfst : fst (step action self) = self') by (rewrite Hs; reflexivity).
    rewrite (step_valid _ _ Hf Ha Hb) in Hs. cbv zeta in Hs.
    destruct (in_bounds _); [discriminate|].
    injection Hs as _ <-.
    split; [auto|]. split; [intros Hne; contradiction Hne; reflexivity|].
    intros _. exists b, log, dx, dy.
    eexists. split; [exact Hb|]. rewrite <- Hfst. exact Hc.
Qed.

End Failures.

Section Budget.

Context {B : Type} {ops : BallOps B} {phys : Physics B}.

Lemma resolve_calls_bonus n obs i (b1 : B) :
  (length (filter is_bonus_step (resolve_calls n obs i b1))
   <= if (i =? n - 1)%Z then 1 else 0)%nat.
Proof.
  unfold resolve_calls. destruct (colliding obs b1) as [|c [|c' l]].
  - cbn. destruct (i =? n - 1); lia.
  - destruct (i =? n - 1); cbn; lia.
  - cbn. destruct (i =? n - 1); lia.
Qed.

Lemma loop_calls_budget n obs tgt (idxs : list Z) :
  forall b : B,
    (length (filter is_substep_start (loop_calls n obs tgt idxs b))
     <= length idxs)%nat
    /\ (length (filter is_bonus_step (loop_calls n obs tgt idxs b))
        <= count_occ Z.eq_dec idxs (n - 1)%Z)%nat.
Proof.
  induction idxs as [|i rest IH]; intros b; cbn [loop_calls].
  - cbn. lia.
  - cbn [filter is_substep_start is_bonus_step length count_occ].
    rewrite !filter_app, !length_app, resolve_calls_no_start.
    pose proof (resolve_calls_bonus n obs i (ball_step (Some n) b)) as Hb.
    set (b' := resolve n obs i (ball_step (Some n) b)).
    destruct (IH b') as [IH1 IH2].
    destruct (target_collision tgt b'); cbn [filter length];
      destruct (Z.eq_dec i (n - 1)) as [->|Hne];
      try rewrite Z.eqb_refl in Hb;
      try (destruct (Z.eqb_spec i (n - 1)); [contradiction|]);
      lia.
Qed.

Lemma count_occ_range (n k : Z) : (count_occ Z.eq_dec (range n) k <= 1)%nat.
Proof.
  assert (Hnd : NoDup (range n)).
  { unfold range. apply Finite.Injective_map_NoDup; [|apply seq_NoDup].
    intros x y Hxy. lia. }
  destruct (proj1 (NoDup_count_occ Z.eq_dec (range n)) Hnd k); lia.
Qed.

(** X18: a valid call of [step] on a recording ball records, between the
    impulse and the drag, at most [step_duration] calls of [step(n)] and
    at most one bonus [step()]: the ball never moves by more than one
    full step and one bonus step in a call. *)
Theorem step_call_budget (self : PynBall (Spy B)) (action : Z)
  (dx dy : float) (b : B) (log : list Call) :
  self.(reset_flag) = true ->
  dict_get ACTION_DICT action = Some (dx, dy) ->
  self.(ball) = Some (b, log) ->
  exists new,
    calls (fst (step action self)) = log ++ new
    /\ (length (filter is_substep_start new) <= Z.to_nat self.(step_duration))%nat
    /\ (length (filter is_bonus_step new) <= 1)%nat.
Proof.
  intros Hf Ha Hb. rewrite (step_calls self action Hf Ha Hb).
  eexists. split; [reflexivity|].
  cbn [filter is_substep_start is_bonus_step].
  rewrite !filter_app, !length_app. cbn [filter is_substep_start is_bonus_step length].
  destruct (loop_calls_budget self.(step_duration) self.(obstacles) self.(target)
              (range self.(step_duration)) (add_impulse dx dy b)) as [H1 H2].
  rewrite length_range in H1.
  pose proof (count_occ_range self.(step_duration) (self.(step_duration) - 1)).
  split; lia.
Qed.

End Budget.

(** * The interactive entry point *)

Section ConfigFile.

Import String.

(** X14: whatever number the user enters, a configuration file is chosen
    and the lookup never fails: 1 gives the very easy one, 3 the hard one,
    and every other number, 2 or not, the easy one. *)
Theorem config_file_choice (difficulty : Z) :
  Main.config_file difficulty
  = Ok (if difficulty =? 1 then "very_easy_config.toml"%string
        else if difficulty =? 3 then "hard_config.toml"%string
        else "easy_config.toml"%string).
Proof.
  unfold Main.config_file. cbn [existsb].
  destruct (Z.eqb_spec difficulty 1) as [->|H1]; [reflexivity|].
  destruct (Z.eqb_spec difficulty 2) as [->|H2]; [reflexivity|].
  destruct (Z.eqb_spec difficulty 3) as [->|H3]; reflexivity.
Qed.

End ConfigFile.

Section MainFacts.

Variables QUIT KEYDOWN K_RIGHT K_UP K_LEFT K_DOWN : Z.

Local Abbreviation actions_get := (Main.actions_get K_RIGHT K_UP K_LEFT K_DOWN).
Local Abbreviation poll := (Main.poll QUIT KEYDOWN K_RIGHT K_UP K_LEFT K_DOWN).
Local Abbreviation last_key := (Main.last_key KEYDOWN).
Local Abbreviation has_quit := (Main.has_quit QUIT).

Lemma actions_get_range (key : Z) : 0 <= actions_get key <= 4.
Proof.
  unfold Main.actions_get, Main.actions, Main.noop. cbn [rev app dict_get].
  repeat match goal with
         | |- context [key =? ?k] => destruct (key =? k); [lia|]
         end.
  lia.
Qed.

Lemma last_map_Some {A} (f : A -> Z) (l : list A) (d : option Z) :
  l <> [] -> exists a, In a l /\ last (map (fun e => Some (f e)) l) d = Some (f a).
Proof.
  revert d. induction l as [|a l IH]; intros d Hne; [contradiction|].
  cbn [map]. rewrite last_cons. destruct l as [|a' l'].
  - exists a. split; [left; reflexivity | reflexivity].
  - destruct (IH (Some (f a)) ltac:(discriminate)) as (x & Hin & Hx).
    exists x. split; [right; exact Hin | exact Hx].
Qed.

Lemma poll_from (events : list Main.Event) (running : bool) (a : Z) :
  fold_left
    (fun (acc : bool * Z) event =>
       let (running, user_action) := acc in
       let running := if Main.ev_type event =? QUIT then false else running in
       let user_action :=
         if Main.ev_type event =? KEYDOWN then actions_get (Main.ev_key event)
         else user_action in
       (running, user_action))
    events (running, a)
  = (running && negb (has_quit events),
     match last_key events with
     | Some key => actions_get key
     | None => a
     end).
Proof.
  revert running a. induction events as [|e events IH]; intros running a.
  - cbn. rewrite andb_true_r. reflexivity.
  - cbn [fold_left]. rewrite IH. unfold Main.has_quit, Main.last_key.
    cbn [existsb filter]. f_equal.
    + destruct (Main.ev_type e =? QUIT); cbn [orb negb].
      * rewrite andb_false_r. reflexivity.
      * reflexivity.
    + destruct (Main.ev_type e =? KEYDOWN); [|reflexivity].
      cbn [map]. rewrite last_cons.
      destruct (filter _ events) as [|e' l]; [reflexivity|].
      destruct (last_map_Some Main.ev_key (l := e' :: l) None ltac:(discriminate))
        as (x & _ & Hx).
      destruct (last_map_Some Main.ev_key (l := e' :: l)
                  (Some (Main.ev_key e)) ltac:(discriminate))
        as (y & _ & Hy).
      rewrite Hx, Hy.
      assert (E : Some (Main.ev_key y) = Some (Main.ev_key x)).
      { rewrite <- Hx, <- Hy. apply last_default. discriminate. }
      injection E as ->. reflexivity.
Qed.

(** X16: when the four arrow keys have different key codes, right gives
    the action 0, down 1, left 2 and up 3, and any other key the action
    4. *)
Theorem arrow_keys :
  NoDup [K_RIGHT; K_UP; K_LEFT; K_DOWN] ->
  actions_get K_RIGHT = 0
  /\ actions_get K_DOWN = 1
  /\ actions_get K_LEFT = 2
  /\ actions_get K_UP = 3
  /\ forall key, ~ In key [K_RIGHT; K_UP; K_LEFT; K_DOWN] -> actions_get key = 4.
Proof.
  intros Hnd.
  assert (K_RIGHT <> K_UP /\ K_RIGHT <> K_LEFT /\ K_RIGHT <> K_DOWN
          /\ K_UP <> K_LEFT /\ K_UP <> K_DOWN /\ K_LEFT <> K_DOWN)
    as (H1 & H2 & H3 & H4 & H5 & H6).
  { inversion Hnd as [|? ? Ha Hnd1]; subst.
    inversion Hnd1 as [|? ? Hb Hnd2]; subst.
    inversion Hnd2 as [|? ? Hc Hnd3]; subst.
    cbn [In] in Ha, Hb, Hc. repeat split; intros E; subst; tauto. }
  unfold Main.actions_get, Main.actions, Main.noop. cbn [rev app dict_get].
  repeat split.
  - rewrite Z.eqb_refl.
    destruct (Z.eqb_spec K_RIGHT K_DOWN); [contradiction|].
    destruct (Z.eqb_spec K_RIGHT K_LEFT); [contradiction|].
    destruct (Z.eqb_spec K_RIGHT K_UP); [contradiction|]. reflexivity.
  - rewrite Z.eqb_refl. reflexivity.
  - rewrite Z.eqb_refl.
    destruct (Z.eqb_spec K_LEFT K_DOWN); [contradiction|]. reflexivity.
  - rewrite Z.eqb_refl.
    destruct (Z.eqb_spec K_UP K_DOWN); [contradiction|].
    destruct (Z.eqb_spec K_UP K_LEFT); [contradiction|]. reflexivity.
  - intros key Hkey. cbn [In] in Hkey.
    destruct (Z.eqb_spec key K_DOWN); [subst; tauto|].
    destruct (Z.eqb_spec key K_LEFT); [subst; tauto|].
    destruct (Z.eqb_spec key K_UP); [subst; tauto|].
    destruct (Z.eqb_spec key K_RIGHT); [subst; tauto|]. reflexivity.
Qed.

Variable Env : Type.
Variable env_step : Z -> Env -> Env * result (float * bool).
Variable in_action_space : Z -> bool.

Local Abbreviation main_loop :=
  (Main.main_loop QUIT KEYDOWN K_RIGHT K_UP K_LEFT K_DOWN env_step in_action_space).

Local Abbreviation frame :=
  (Main.frame QUIT KEYDOWN K_RIGHT K_UP K_LEFT K_DOWN env_step in_action_space).
Local Abbreviation frame_action :=
  (Main.frame_action KEYDOWN K_RIGHT K_UP K_LEFT K_DOWN).

(** X15: in a pass through the loop body that does not raise, the loop
    over the events leaves [running] true exactly when it was and no
    event is a QUIT, and leaves as action the one of the last key pressed
    ([actions.get] with 4 as default), 4 when no key was pressed, so an
    action in 0..4.  The environment is stepped once with that action
    when it is in the action space, and not at all otherwise; the reward
    of the step (0 without a step) is added to the score; and at the end
    of the pass [running] is true exactly when it was, no event is a
    QUIT and [terminal] is false. *)
Theorem frame_last_key (events : list Main.Event) (s s' : Main.Loop Env) :
  frame events s = Ok s' ->
  poll events (Main.running s)
  = (Main.running s && negb (has_quit events), frame_action events)
  /\ 0 <= frame_action events <= 4
  /\ Main.running s'
     = Main.running s && negb (has_quit events) && negb (Main.terminal s')
  /\ (in_action_space (frame_action events) = true ->
      exists r,
        env_step (frame_action events) (Main.env s)
        = (Main.env s', Ok (r, Main.terminal s'))
        /\ Main.reward s' = (Main.reward s + r)%float)
  /\ (in_action_space (frame_action events) = false ->
      Main.env s' = Main.env s
      /\ Main.terminal s' = Main.terminal s
      /\ Main.reward s' = (Main.reward s + 0.0)%float).
Proof.
  assert (Hpoll : poll events (Main.running s)
                  = (Main.running s && negb (has_quit events),
                     frame_action events))
    by apply poll_from.
  intros Hs. split; [exact Hpoll|]. split.
  { unfold Main.frame_action. destruct (last_key events);
      [apply actions_get_range | unfold Main.noop; lia]. }
  revert Hs. unfold Main.frame. rewrite Hpoll.
  destruct (in_action_space (frame_action events)).
  - destruct (env_step (frame_action events) (Main.env s))
      as [env' [[r t]|e]]; [|discriminate].
    intros Hs. injection Hs as <-. cbn [Main.running Main.terminal Main.env Main.reward].
    split; [destruct t; [rewrite andb_false_r|rewrite andb_true_r]; reflexivity|].
    split; [|discriminate].
    intros _. exists r. split; reflexivity.
  - intros Hs. injection Hs as <-. cbn [Main.running Main.terminal Main.env Main.reward].
    split; [destruct (Main.terminal s);
            [rewrite andb_false_r|rewrite andb_true_r]; reflexivity|].
    split; [discriminate|]. intros _. repeat split.
Qed.

(** X17: a QUIT event does not cancel the step of its frame: the
    environment is stepped with the action of the frame, the reward is
    added to the score, and the loop ends after that frame, whatever
    frames would follow. *)
Theorem quit_frame_still_steps (events : list Main.Event)
  (rest : list (list Main.Event)) (s : Main.Loop Env)
  (env' : Env) (r : float) (t : bool) :
  Main.running s = true ->
  has_quit events = true ->
  in_action_space (snd (poll events true)) = true ->
  env_step (snd (poll events true)) (Main.env s) = (env', Ok (r, t)) ->
  main_loop (events :: rest) s
  = Ok {| Main.env := env'; Main.reward := (Main.reward s + r)%float;
          Main.running := false; Main.terminal := t |}.
Proof.
  intros Hrun Hquit Hin Hstep. cbn [Main.main_loop]. rewrite Hrun.
  unfold Main.frame. rewrite Hrun.
  revert Hin Hstep. unfold Main.poll. rewrite poll_from.
  rewrite Hquit. cbn [andb negb snd]. intros Hin Hstep.
  rewrite Hin, Hstep.
  assert (Hend : (if t then false else false) = false) by (destruct t; reflexivity).
  rewrite Hend. destruct rest; reflexivity.
Qed.

End MainFacts.

(** * The further properties on the scenes *)

Import Cases Session.

(** Runs [step] on a scene that fails the bounds check and names its
    outcome [E]. *)
Ltac run_failing_step action scene self' E :=
  let r := fresh "r" in
  destruct (step action scene) as [self' r] eqn:E;
  assert (r = Raise RuntimeError)
    by (apply (f_equal snd) in E; cbn [snd] in E; rewrite <- E;
        vm_compute; reflexivity);
  subst r.

Lemma step_without_substeps_witness :
  step_duration frozen <= 0
  /\ terminal frozen = (frozen, Ok true)
  /\ exists self' st, step 4 frozen = (self', Ok (st, NOP_PENALTY, false)).
Proof.
  assert (Hn : step_duration frozen <= 0) by (cbn; lia).
  split; [exact Hn|]. split; [vm_compute; reflexivity|].
  rewrite (@step_without_substeps _ _ _ frozen 4 0.0%float 0.0%float
             (ball_at 0.9 0.9 0.0 0.0)%float Hn eq_refl eq_refl eq_refl).
  match goal with
  | |- context [if ?c then _ else _] =>
      assert (Hin : c = true) by (vm_compute; reflexivity); rewrite Hin
  end.
  eexists. eexists. reflexivity.
Defined.

Lemma check_bounds_after_step_witness :
  (exists self' v,
      step 0 at_rest = (self', Ok v) /\ check_bounds self' = (self', Ok tt))
  /\ (exists self',
        step 0 leaving = (self', Raise RuntimeError)
        /\ check_bounds self' = (self', Raise RuntimeError)).
Proof.
  split.
  - run_step 0 at_rest self' st reward t E.
    exists self', (st, reward, t). split; [reflexivity|].
    exact (proj1 (check_bounds_after_step _ _ E) _ eq_refl).
  - run_failing_step 0 leaving self' E.
    exists self'. split; [reflexivity|].
    exact (proj2 (check_bounds_after_step _ _ E) eq_refl).
Defined.

Lemma step_continues_witness :
  exists self' st reward,
    step 0 at_rest = (self', Ok (st, reward, false))
    /\ reset_flag self' = true
    /\ (snd (step 4 self') = Raise RuntimeError
        \/ exists v, snd (step 4 self') = Ok v).
Proof.
  run_step 0 at_rest self' st reward t E.
  assert (Ht : t = false) by (vm_compute in E; congruence). subst t.
  exists self', st, reward. split; [reflexivity|].
  destruct (step_continues _ _ E) as (Hflag & _ & Hnext).
  split; [exact Hflag|]. apply (Hnext eq_refl 4). lia.
Defined.

Lemma terminal_agrees_witness :
  1 <= step_duration scoring
  /\ exists self' st reward,
      step 4 scoring = (self', Ok (st, reward, true))
      /\ terminal self' = (self', Ok true).
Proof.
  assert (Hn : 1 <= step_duration scoring) by (cbn; lia).
  split; [exact Hn|].
  run_step 4 scoring self' st reward t E.
  assert (Ht : t = true) by (vm_compute in E; congruence). subst t.
  exists self', st, reward. split; [reflexivity|].
  exact (@terminal_agrees _ _ _ scoring self' 4 st reward true
           (fun d b => eq_refl) Hn E).
Defined.

Lemma finished_stays_finished_witness :
  reset_flag (fst (init (B := Model.Ball) cfg 7)) = false
  /\ observe [Step 0; Step 4; Step 9] (init (B := Model.Ball) cfg 7)
     = [ Stepped (Raise AssertionError); Stepped (Raise AssertionError);
         Stepped (Raise AssertionError) ]
  /\ world_after [Step 0; Step 4; Step 9] (init (B := Model.Ball) cfg 7)
     = init (B := Model.Ball) cfg 7.
Proof.
  split; [reflexivity|].
  exact (@finished_stays_finished _ _ _ _ _ (fst (init (B := Model.Ball) cfg 7))
           (snd (init (B := Model.Ball) cfg 7)) [0; 4; 9] eq_refl).
Defined.

Lemma reachable_step_outcomes_witness :
  reachable (at_rest, 0)
  /\ ((exists v, snd (step 0 at_rest) = Ok v)
      \/ snd (step 0 at_rest) = Raise AssertionError
      \/ snd (step 0 at_rest) = Raise KeyError
      \/ snd (step 0 at_rest) = Raise RuntimeError).
Proof.
  assert (Hr : reachable (at_rest, 0))
    by exact (reach_reset (Some (ball_at 0.2 0.2 0.0 0.0)%float)
                (reach_init (B := Model.Ball) cfg 0)).
  split; [exact Hr|]. exact (reachable_step_outcomes 0 Hr).
Defined.

Lemma reset_picks_start_witness :
  exists self' g' st start,
    reset None (init (B := Model.Ball) cfg_starts 0) = ((self', g'), Ok st)
    /\ In start (cfg_ball_starts cfg_starts)
    /\ ball self' = Some (new_ball (mk_point start) (cfg_ball_radius cfg_starts))
    /\ reset_flag self' = true.
Proof.
  destruct (reset None (init (B := Model.Ball) cfg_starts 0))
    as [[self' g'] [st|e]] eqn:E;
    [| exfalso; vm_compute in E; discriminate E ].
  destruct (@reset_picks_start _ _ _ _ (fst (init (B := Model.Ball) cfg_starts 0))
              self' _ g' st E)
    as (start & Hin & Hball & _ & Hflag & _).
  exists self', g', st, start. split; [reflexivity|].
  split; [exact Hin|]. split; [exact Hball | exact Hflag].
Defined.

Lemma lcg_randbelow (n : nat) (g : Z) :
  (0 < n)%nat -> (fst (randbelow n g) < n)%nat.
Proof.
  intros Hn. cbn [randbelow lcg fst].
  pose proof (Z.mod_pos_bound ((g * 1103515245 + 12345) mod 2147483648)
                (Z.of_nat n) ltac:(lia)).
  lia.
Qed.

Lemma reset_without_start_witness :
  reset None (init (B := Model.Ball) cfg_no_start 0)
  = (init (B := Model.Ball) cfg_no_start 0, Raise IndexError)
  /\ exists st, snd (reset None (init (B := Model.Ball) cfg_starts 0)) = Ok st.
Proof.
  split.
  - exact (proj1 (@reset_without_start _ _ _ _
                    (fst (init (B := Model.Ball) cfg_no_start 0)) 0) eq_refl).
  - apply (proj2 (@reset_without_start _ _ _ _
                    (fst (init (B := Model.Ball) cfg_starts 0)) 5)).
    + exact lcg_randbelow.
    + discriminate.
Defined.

Lemma reset_forgets_witness :
  same_world scoring at_rest
  /\ reset None (scoring, 7) = reset None (at_rest, 7).
Proof.
  assert (Hw : same_world scoring at_rest) by (repeat split).
  split; [exact Hw|].
  destruct (@reset_forgets _ _ _ _ scoring at_rest None 7 Hw) as (Hres & Hgen & Henv).
  destruct (reset None (scoring, 7)) as [[s1 g1] [st|e]] eqn:E1;
    [| exfalso; vm_compute in E1; discriminate E1 ].
  destruct (reset None (at_rest, 7)) as [[s2 g2] r2].
  cbn [fst snd] in Hres, Hgen, Henv.
  rewrite (Henv st eq_refl), Hgen, Hres. reflexivity.
Defined.

Lemma step_failure_witness :
  exists self' log',
    step 0 (record_calls leaving) = (self', Raise RuntimeError)
    /\ calls self' = log'
    /\ log' <> [].
Proof.
  destruct (step 0 (record_calls leaving)) as [self' r] eqn:E.
  assert (Hr : r = Raise RuntimeError)
    by (apply (f_equal snd) in E; cbn [snd] in E; rewrite <- E;
        vm_compute; reflexivity).
  subst r.
  destruct (step_failure _ _ E) as (_ & _ & Hmoved).
  destruct (Hmoved eq_refl) as (b & log & dx & dy & in_loop & _ & Hcalls).
  exists self', (calls self'). split; [reflexivity|]. split; [reflexivity|].
  rewrite Hcalls. destruct log; discriminate.
Defined.

Lemma step_obstacle_order_witness :
  Permutation (obstacles wedged) (rev (obstacles wedged))
  /\ snd (step 4 (with_obstacles (rev (obstacles wedged)) wedged))
     = snd (step 4 wedged).
Proof.
  assert (Hp : Permutation (obstacles wedged) (rev (obstacles wedged)))
    by apply Permutation_rev.
  split; [exact Hp|].
  exact (proj1 (@step_obstacle_order _ _ _ wedged _ 4 Hp)).
Defined.

Lemma returned_state_is_ball_witness :
  exists self' st reward t b,
    step 0 at_rest = (self', Ok (st, reward, t))
    /\ ball self' = Some b /\ st = ball_state b.
Proof.
  run_step 0 at_rest self' st reward t E.
  destruct (proj2 (@returned_state_is_ball Model.Ball _ _) _ _ _ _ _ _ E)
    as (b & Hb & Hst).
  exists self', st, reward, t, b. split; [reflexivity|].
  split; [exact Hb | exact Hst].
Defined.

Lemma arrow_keys_witness :
  NoDup [K_RIGHT; K_UP; K_LEFT; K_DOWN]
  /\ Main.actions_get K_RIGHT K_UP K_LEFT K_DOWN K_UP = 3
  /\ Main.actions_get K_RIGHT K_UP K_LEFT K_DOWN K_DOWN = 1.
Proof.
  assert (Hnd : NoDup [K_RIGHT; K_UP; K_LEFT; K_DOWN]).
  { repeat constructor; cbn [In]; unfold K_RIGHT, K_UP, K_LEFT, K_DOWN; lia. }
  split; [exact Hnd|].
  destruct (arrow_keys Hnd) as (_ & Hdown & _ & Hup & _).
  split; [exact Hup | exact Hdown].
Defined.

Lemma quit_frame_still_steps_witness :
  exists env' r t,
    scene_step 0 at_rest = (env', Ok (r, t))
    /\ Main.main_loop QUIT KEYDOWN K_RIGHT K_UP K_LEFT K_DOWN
         scene_step scene_action_space
         [right_then_quit; right_then_quit] loop_start
       = Ok {| Main.env := env'; Main.reward := (0.0 + r)%float;
               Main.running := false; Main.terminal := t |}.
Proof.
  destruct (scene_step 0 at_rest) as [env' [[r t]|e]] eqn:E;
    [| exfalso; vm_compute in E; discriminate E ].
  exists env', r, t. split; [reflexivity|].
  exact (@quit_frame_still_steps QUIT KEYDOWN K_RIGHT K_UP K_LEFT K_DOWN _
           scene_step scene_action_space right_then_quit [right_then_quit]
           loop_start env' r t eq_refl eq_refl eq_refl E).
Defined.

Lemma step_call_budget_witness :
  exists new,
    calls (fst (step 4 (record_calls touching))) = [] ++ new
    /\ (length (filter is_substep_start new) <= 20)%nat
    /\ (length (filter is_bonus_step new) <= 1)%nat.
Proof.
  exact (@step_call_budget _ _ _ (record_calls touching) 4 0.0%float 0.0%float
           (ball_at 0.387 0.5 0.1 0.0)%float [] eq_refl eq_refl eq_refl).
Defined.



Lemma frame_last_key_witness :
  (exists s',
      Main.frame QUIT KEYDOWN K_RIGHT K_UP K_LEFT K_DOWN
        scene_step scene_action_space right_then_quit loop_start = Ok s'
      /\ Main.frame_action KEYDOWN K_RIGHT K_UP K_LEFT K_DOWN right_then_quit = 0
      /\ Main.running s' = false)
  /\ (exists s',
        Main.frame QUIT KEYDOWN K_RIGHT K_UP K_LEFT K_DOWN
          scene_step scene_action_space [] loop_scoring = Ok s'
        /\ Main.frame_action KEYDOWN K_RIGHT K_UP K_LEFT K_DOWN [] = 4
        /\ Main.terminal s' = true
        /\ Main.running s' = false).
Proof.
  split.
  - destruct (Main.frame QUIT KEYDOWN K_RIGHT K_UP K_LEFT K_DOWN
                scene_step scene_action_space right_then_quit loop_start)
      as [s'|e] eqn:E; [| exfalso; vm_compute in E; discriminate E ].
    destruct (@frame_last_key QUIT KEYDOWN K_RIGHT K_UP K_LEFT K_DOWN _
                scene_step scene_action_space right_then_quit loop_start s' E)
      as (_ & _ & Hrun & _).
    exists s'. split; [reflexivity|]. split; [reflexivity|].
    rewrite Hrun. reflexivity.
  - destruct (Main.frame QUIT KEYDOWN K_RIGHT K_UP K_LEFT K_DOWN
                scene_step scene_action_space [] loop_scoring)
      as [s'|e] eqn:E; [| exfalso; vm_compute in E; discriminate E ].
    destruct (@frame_last_key QUIT KEYDOWN K_RIGHT K_UP K_LEFT K_DOWN _
                scene_step scene_action_space [] loop_scoring s' E)
      as (_ & _ & Hrun & _).
    assert (Ht : Main.terminal s' = true).
    { pose proof E as E'. vm_compute in E'. injection E' as <-. reflexivity. }
    exists s'. split; [reflexivity|]. split; [reflexivity|].
    split; [exact Ht|]. rewrite Hrun, Ht. reflexivity.
Defined.
